(** * SMART CVD risk reduction calculator: a shallow embedding of cvd_risk_app.py

    The calculation part of the Streamlit script (catalogs, the SMART risk
    estimator, the LDL projection, the multiplicative stacking of risk
    reductions and the outcome metrics) is embedded as functions over the
    real numbers.

    Modelling conventions.
    - Python floats are read as exact real numbers: [+], [-], [*], [/],
      [min], [max] are the operations of [R]; [math.exp] is [exp],
      [math.log] is [ln], [x ** y] is [float_pow].  Binary64 rounding error
      of the individual operations is not modelled.
    - Python ints produced by the integer widgets (age, eGFR, the two SBP
      fields, the catalog percentages) are [Z] and are injected with [IZR]
      where the script mixes them with floats.
    - [round(x, 1)] is [round1]: rounding to the nearest tenth, ties to the
      even tenth.
    - The values of the radio, checkbox and multiselect widgets are
      enumerations; the widgets cannot return anything else. *)

From Stdlib Require Import Reals Lra Lia ZArith List Bool Permutation.
Import ListNotations.

Open Scope R_scope.

(* ================================================================== *)
(** ** Rounding to one decimal place *)

Module Round.

(** Nearest integer, ties to even. *)
Definition half_even (x : R) : Z :=
  let f := Zfloor x in
  let d := x - IZR f in
  if Rlt_dec d (1 / 2) then f
  else if Rlt_dec (1 / 2) d then (f + 1)%Z
  else if Z.even f then f else (f + 1)%Z.

(** [round(x, 1)] *)
Definition round1 (x : R) : R := IZR (half_even (x * 10)) / 10.

(** A value with at most one decimal digit. *)
Definition one_decimal (x : R) : Prop := exists k : Z, x = IZR k / 10.

End Round.
Import Round.

(* ================================================================== *)
(** ** Catalogs *)

Inductive iv_name : Type :=
  | Smoking_cessation      (* "Smoking cessation" *)
  | Antiplatelet           (* "Antiplatelet (ASA or clopidogrel)" *)
  | BP_control             (* "BP control (ACEi/ARB +- CCB)" *)
  | Semaglutide            (* "Semaglutide 2.4 mg" *)
  | Weight_loss            (* "Weight loss to ideal BMI" *)
  | Empagliflozin          (* "Empagliflozin" *)
  | Icosapent_ethyl        (* "Icosapent ethyl (TG >=1.5)" *)
  | Mediterranean_diet     (* "Mediterranean diet" *)
  | Physical_activity      (* "Physical activity" *)
  | Alcohol_moderation     (* "Alcohol moderation" *)
  | Stress_reduction.      (* "Stress reduction" *)

Definition iv_name_eq_dec (a b : iv_name) : {a = b} + {a <> b}.
Proof. decide equality. Defined.

Record intervention : Type := mk_iv {
  name : iv_name;
  arr_lifetime : Z;
  arr_5yr : Z
}.

Definition interventions : list intervention :=
  [ mk_iv Smoking_cessation 17 5;
    mk_iv Antiplatelet 6 2;
    mk_iv BP_control 12 4;
    mk_iv Semaglutide 4 1;
    mk_iv Weight_loss 10 3;
    mk_iv Empagliflozin 6 2;
    mk_iv Icosapent_ethyl 5 2;
    mk_iv Mediterranean_diet 9 3;
    mk_iv Physical_activity 9 3;
    mk_iv Alcohol_moderation 5 2;
    mk_iv Stress_reduction 3 1 ].

Inductive therapy : Type :=
  | Atorvastatin_20        (* "Atorvastatin 20 mg" *)
  | Atorvastatin_80        (* "Atorvastatin 80 mg" *)
  | Rosuvastatin_10        (* "Rosuvastatin 10 mg" *)
  | Rosuvastatin_20_40     (* "Rosuvastatin 20-40 mg" *)
  | Simvastatin_40         (* "Simvastatin 40 mg" *)
  | Ezetimibe              (* "Ezetimibe" *)
  | PCSK9_inhibitor        (* "PCSK9 inhibitor" *)
  | Bempedoic_acid.        (* "Bempedoic acid" *)

Definition ldl_therapies (d : therapy) : Z :=
  match d with
  | Atorvastatin_20 => 40
  | Atorvastatin_80 => 50
  | Rosuvastatin_10 => 40
  | Rosuvastatin_20_40 => 55
  | Simvastatin_40 => 35
  | Ezetimibe => 20
  | PCSK9_inhibitor => 60
  | Bempedoic_acid => 18
  end.

(* ================================================================== *)
(** ** Inputs *)

Inductive sex_t : Type := Male | Female.

Inductive horizon_t : Type :=
  | H5yr        (* "5yr" *)
  | H10yr       (* "10yr" *)
  | Hlifetime.  (* "lifetime" *)

Definition is_5yr (h : horizon_t) : bool :=
  match h with H5yr => true | _ => false end.

(** The values read from the sidebar. *)
Record inputs : Type := mk_inputs {
  age : Z;
  sex : sex_t;
  smoker : bool;
  diabetes : bool;
  egfr : Z;
  vasc : list bool;
  total_chol : R;
  hdl : R;
  crp : R;
  baseline_ldl : R;
  hba1c : R;
  pre_tx : list therapy;
  add_tx : list therapy;
  sbp_current : Z;
  sbp_target : Z;
  ivs : list iv_name;
  horizon : horizon_t
}.

(** The ranges the widgets enforce. *)
Record valid (s : inputs) : Prop := mk_valid {
  v_age : (30 <= age s <= 90)%Z;
  v_egfr : (15 <= egfr s <= 120)%Z;
  v_vasc : length (vasc s) = 3%nat;
  v_chol : 2 <= total_chol s <= 10;
  v_hdl : 0.5 <= hdl s <= 3;
  v_crp : 0.1 <= crp s <= 20;
  v_ldl : 0.5 <= baseline_ldl s <= 6;
  v_hba1c : 5 <= hba1c s <= 12;
  v_sbp_c : (80 <= sbp_current s <= 220)%Z;
  v_sbp_t : (80 <= sbp_target s <= 220)%Z;
  v_pre : NoDup (pre_tx s);
  v_add : NoDup (add_tx s);
  v_disj : forall d, In d (add_tx s) -> ~ In d (pre_tx s);
  v_ivs : NoDup (ivs s)
}.

(* ================================================================== *)
(** ** SMART risk score functions *)

(** [x ** y] for a base [x >= 0] and an exponent [y > 0]; [0 ** y] is [0].
    (A negative base with a fractional exponent leaves the floats in
    Python; the script never reaches it, see [risk10_range].) *)
Definition float_pow (x y : R) : R :=
  if Rlt_dec 0 x then Rpower x y else 0.

Definition b2z (b : bool) : Z := if b then 1%Z else 0%Z.

(** [math.exp] and [math.log] are total here; in Python [math.exp] overflows
    above about 709.78 and [math.log] rejects non-positive arguments, neither
    of which is reachable within the widget ranges ([lp - 5.8 < 10],
    [crp + 1 > 1]). *)
Definition estimate_smart_risk (age : Z) (sex : sex_t) (sbp : Z)
    (total_chol hdl : R) (smoker diabetes : bool) (egfr : Z) (crp : R)
    (vasc_count : Z) : R :=
  let sex_val := match sex with Male => 1%Z | Female => 0%Z end in
  let smoking_val := if smoker then 1%Z else 0%Z in
  let diabetes_val := if diabetes then 1%Z else 0%Z in
  let crp_log := if Req_dec_T crp 0 then 0 else ln (crp + 1) in
  let lp := 0.064 * IZR age + 0.34 * IZR sex_val + 0.02 * IZR sbp
            + 0.25 * total_chol - 0.25 * hdl + 0.44 * IZR smoking_val
            + 0.51 * IZR diabetes_val - 0.2 * (IZR egfr / 10)
            + 0.25 * crp_log + 0.4 * IZR vasc_count in
  let risk10 := 1 - float_pow 0.900 (exp (lp - 5.8)) in
  round1 (risk10 * 100).

Definition convert_5yr_from_10yr (risk10 : R) : R :=
  let p := risk10 / 100 in
  round1 ((1 - float_pow (1 - p) 0.5) * 100).

(* ================================================================== *)
(** ** Calculations *)

(** [sum(vasc)] *)
Definition vasc_count (s : inputs) : Z :=
  fold_left (fun acc b => (acc + b2z b)%Z) (vasc s) 0%Z.

Definition risk10 (s : inputs) : R :=
  estimate_smart_risk (age s) (sex s) (sbp_current s) (total_chol s) (hdl s)
    (smoker s) (diabetes s) (egfr s) (crp s) (vasc_count s).

Definition risk5 (s : inputs) : R := convert_5yr_from_10yr (risk10 s).

Definition baseline_risk (s : inputs) : R :=
  if is_5yr (horizon s) then risk5 s else risk10 s.

Definition caps (h : horizon_t) : Z :=
  match h with H5yr => 80 | H10yr => 85 | Hlifetime => 90 end%Z.

Definition baseline_risk_capped (s : inputs) : R :=
  Rmin (baseline_risk s) (IZR (caps (horizon s))).

(** *** LDL adjustment *)

Definition pre_step (adjusted_ldl : R) (drug : therapy) : R :=
  adjusted_ldl * (1 - IZR (ldl_therapies drug) / 100).

Definition add_step (final_ldl : R) (drug : therapy) : R :=
  final_ldl * (1 - (IZR (ldl_therapies drug) / 100) * 0.5).

Definition project_adjusted_ldl (baseline : R) (pre : list therapy) : R :=
  Rmax (fold_left pre_step pre baseline) 1.0.

Definition project_ldl (baseline : R) (pre add : list therapy) : R :=
  Rmax (fold_left add_step add (project_adjusted_ldl baseline pre)) 1.0.

Definition adjusted_ldl (s : inputs) : R :=
  project_adjusted_ldl (baseline_ldl s) (pre_tx s).

Definition final_ldl (s : inputs) : R :=
  project_ldl (baseline_ldl s) (pre_tx s) (add_tx s).

(** *** Risk after non-lipid interventions *)

Definition iv_effect (h : horizon_t) (iv : intervention) : Z :=
  if is_5yr h then arr_5yr iv else arr_lifetime iv.

Definition iv_step (h : horizon_t) (sel : list iv_name)
    (remaining : R) (iv : intervention) : R :=
  if in_dec iv_name_eq_dec (name iv) sel then
    let arr := iv_effect h iv in
    remaining * (1 - IZR arr / 100)
  else remaining.

Definition remaining_ivs (s : inputs) : R :=
  fold_left (iv_step (horizon s) (ivs s)) interventions
    (baseline_risk_capped s / 100).

(** *** LDL effect *)

Definition ldl_effect (final_ldl baseline_ldl remaining : R) : R :=
  if Rlt_dec final_ldl baseline_ldl then
    let drop := baseline_ldl - final_ldl in
    let rrr_ldl := Rmin (22 * drop) 35 in
    remaining * (1 - rrr_ldl / 100)
  else remaining.

(** *** BP effect *)

Definition bp_effect (sbp_target sbp_current : Z) (remaining : R) : R :=
  if Z_lt_dec sbp_target sbp_current then
    let rrr_bp := Rmin (15 * (IZR (sbp_current - sbp_target) / 10)) 20 in
    remaining * (1 - rrr_bp / 100)
  else remaining.

(** *** HbA1c effect *)

Definition rrr_hba1c (hba1c : R) : R :=
  if Rlt_dec 7.0 hba1c then Rmin ((hba1c - 7.0) * 9) 30 else 0.

Definition hba1c_effect (hba1c remaining : R) : R :=
  if Rlt_dec 7.0 hba1c then remaining * (1 - rrr_hba1c hba1c / 100)
  else remaining.

Definition remaining (s : inputs) : R :=
  hba1c_effect (hba1c s)
    (bp_effect (sbp_target s) (sbp_current s)
      (ldl_effect (final_ldl s) (baseline_ldl s) (remaining_ivs s))).

(** *** Final risk metrics *)

Definition final_risk (s : inputs) : R := round1 (remaining s * 100).

Definition arr (s : inputs) : R :=
  round1 (baseline_risk_capped s - final_risk s).

Definition rrr (s : inputs) : R :=
  if Req_dec_T (baseline_risk_capped s) 0 then 0
  else round1 (Rmin (arr s / baseline_risk_capped s * 100) 75).

(* ================================================================== *)
(** ** Auxiliary notions used to state the properties *)

(** Product of a list of factors. *)
Definition prod_list (fs : list R) : R := fold_right Rmult 1 fs.

(** The factor one therapy contributes before admission and as an add-on. *)
Definition pre_factor (d : therapy) : R := 1 - IZR (ldl_therapies d) / 100.

Definition add_factor (d : therapy) : R :=
  1 - (IZR (ldl_therapies d) / 100) * 0.5.

(** The same sidebar with another selection of interventions. *)
Definition with_ivs (s : inputs) (sel : list iv_name) : inputs :=
  mk_inputs (age s) (sex s) (smoker s) (diabetes s) (egfr s) (vasc s)
    (total_chol s) (hdl s) (crp s) (baseline_ldl s) (hba1c s)
    (pre_tx s) (add_tx s) (sbp_current s) (sbp_target s) sel (horizon s).

(** The percentages of the three physiological factors as the specification
    words them; they are compared with the code in [stacking_factors]. *)
Module Spec.

Definition ldl_factor (projected_ldl baseline_ldl : R) : R :=
  if Rlt_dec projected_ldl baseline_ldl
  then Rmin (22 * (baseline_ldl - projected_ldl)) 35 else 0.

Definition bp_factor (target_sbp current_sbp : Z) : R :=
  if Z_lt_dec target_sbp current_sbp
  then Rmin (15 * (IZR (current_sbp - target_sbp) / 10)) 20 else 0.

Definition glycaemic_factor (hba1c : R) : R :=
  if Rlt_dec 7 hba1c then Rmin ((hba1c - 7) * 9) 30 else 0.

End Spec.

(** The three physiological effects taken together scale the running
    probability by a factor between 0 and 1 that does not depend on the
    selected interventions. *)
Definition physio_scale (s : inputs) : R :=
  (1 - Spec.ldl_factor (final_ldl s) (baseline_ldl s) / 100)
  * (1 - Spec.bp_factor (sbp_target s) (sbp_current s) / 100)
  * (1 - Spec.glycaemic_factor (hba1c s) / 100).

(** *** Sample sidebars *)

(** The defaults of the widgets with the scenario of the specification:
    a 60-year-old male smoker, nothing selected, target SBP equal to the
    current one. *)
Definition scenario_default : inputs :=
  mk_inputs 60 Male true false 80 [false; false; false]
    5.0 1.0 2.0 3.5 7.0 [] [] 145 145 [] H10yr.

(** An 80-year-old diabetic smoker with disease in three vascular beds. *)
Definition profile_high : inputs :=
  mk_inputs 80 Male true true 30 [true; true; true]
    7.0 1.0 5.0 3.5 7.0 [] [] 180 180 [] H10yr.

(** A 30-year-old woman with low blood pressure and good renal function. *)
Definition profile_low : inputs :=
  mk_inputs 30 Female false false 120 [false; false; false]
    3.0 2.0 0.1 3.5 7.0 [] [] 90 90 [] H10yr.

(** A baseline LDL below the floor, with the two strongest therapies. *)
Definition profile_low_ldl : inputs :=
  mk_inputs 60 Male true false 80 [false; false; false]
    5.0 1.0 2.0 0.5 7.0 [PCSK9_inhibitor] [Rosuvastatin_20_40] 145 145 []
    H10yr.

(* ================================================================== *)
(** ** The selection widgets *)

Definition therapy_eq_dec (a b : therapy) : {a = b} + {a <> b}.
Proof. decide equality. Defined.

(** [list(ldl_therapies.keys())], the options of the pre-admission
    multiselect, in the order the dictionary lists them. *)
Definition ldl_therapy_keys : list therapy :=
  [ Atorvastatin_20; Atorvastatin_80; Rosuvastatin_10; Rosuvastatin_20_40;
    Simvastatin_40; Ezetimibe; PCSK9_inhibitor; Bempedoic_acid ].

(** [[d for d in ldl_therapies if d not in pre_tx]], the options of the
    add-on multiselect. *)
Definition add_options (pre_tx : list therapy) : list therapy :=
  filter (fun d => if in_dec therapy_eq_dec d pre_tx then false else true)
    ldl_therapy_keys.

(** The checkbox loop: one checkbox per catalog entry, the names of the
    ticked ones appended in catalog order. *)
Definition collect_ivs (checkbox : iv_name -> bool) : list iv_name :=
  fold_left
    (fun ivs iv => if checkbox (name iv) then ivs ++ [name iv] else ivs)
    interventions [].

(** The same sidebar with another time horizon. *)
Definition with_horizon (s : inputs) (h : horizon_t) : inputs :=
  mk_inputs (age s) (sex s) (smoker s) (diabetes s) (egfr s) (vasc s)
    (total_chol s) (hdl s) (crp s) (baseline_ldl s) (hba1c s)
    (pre_tx s) (add_tx s) (sbp_current s) (sbp_target s) (ivs s) h.

(* ================================================================== *)
(** * Properties *)

(** ** Rounding *)

Section RoundFacts.

Lemma half_even_bound (x : R) :
  IZR (half_even x) - 1 / 2 <= x <= IZR (half_even x) + 1 / 2.
Proof.
  unfold half_even.
  pose proof (Zfloor_bound x) as Hf.
  destruct (Rlt_dec (x - IZR (Zfloor x)) (1 / 2)) as [Hlo | Hlo].
  - lra.
  - destruct (Rlt_dec (1 / 2) (x - IZR (Zfloor x))) as [Hhi | Hhi].
    + rewrite plus_IZR. lra.
    + destruct (Z.even (Zfloor x)); [| rewrite plus_IZR]; lra.
Qed.

Lemma half_even_eq (x : R) (k : Z) :
  IZR k - 1 / 2 < x < IZR k + 1 / 2 -> half_even x = k.
Proof.
  intros Hx.
  pose proof (half_even_bound x) as Hb.
  destruct (Z.lt_trichotomy (half_even x) k) as [Hlt | [Heq | Hgt]].
  - assert (IZR (half_even x) + 1 <= IZR k)
      by (rewrite <- plus_IZR; apply IZR_le; lia).
    lra.
  - exact Heq.
  - assert (IZR k + 1 <= IZR (half_even x))
      by (rewrite <- plus_IZR; apply IZR_le; lia).
    lra.
Qed.

Lemma half_even_IZR (k : Z) : half_even (IZR k) = k.
Proof. apply half_even_eq. lra. Qed.

Lemma half_even_mono (x y : R) :
  x <= y -> (half_even x <= half_even y)%Z.
Proof.
  intros Hxy.
  destruct (Z_le_gt_dec (half_even x) (half_even y)) as [Hle | Hgt];
    [exact Hle | exfalso].
  pose proof (half_even_bound x) as Hx.
  pose proof (half_even_bound y) as Hy.
  assert (Hgap : IZR (half_even y) + 1 <= IZR (half_even x))
    by (rewrite <- plus_IZR; apply IZR_le; lia).
  assert (Heq : x = y) by lra.
  subst y. lia.
Qed.

Lemma round1_one_decimal (x : R) : one_decimal (round1 x).
Proof. exists (half_even (x * 10)). reflexivity. Qed.

Lemma round1_tenth (k : Z) : round1 (IZR k / 10) = IZR k / 10.
Proof.
  unfold round1.
  replace (IZR k / 10 * 10) with (IZR k) by lra.
  now rewrite half_even_IZR.
Qed.

Lemma round1_fix (x : R) : one_decimal x -> round1 x = x.
Proof. intros [k ->]. apply round1_tenth. Qed.

Lemma round1_IZR (k : Z) : round1 (IZR k) = IZR k.
Proof.
  replace (IZR k) with (IZR (k * 10) / 10) at 1 2
    by (rewrite mult_IZR; lra).
  apply round1_tenth.
Qed.

Lemma round1_mono (x y : R) : x <= y -> round1 x <= round1 y.
Proof.
  intros Hxy. unfold round1.
  assert (H : (half_even (x * 10) <= half_even (y * 10))%Z)
    by (apply half_even_mono; lra).
  apply IZR_le in H. lra.
Qed.

Lemma round1_le_IZR (x : R) (k : Z) : x <= IZR k -> round1 x <= IZR k.
Proof. intros H. rewrite <- (round1_IZR k). now apply round1_mono. Qed.

Lemma round1_ge_IZR (x : R) (k : Z) : IZR k <= x -> IZR k <= round1 x.
Proof. intros H. rewrite <- (round1_IZR k). now apply round1_mono. Qed.

Lemma round1_le_fix (x y : R) : one_decimal y -> x <= y -> round1 x <= y.
Proof. intros Hy H. rewrite <- (round1_fix y Hy). now apply round1_mono. Qed.

Lemma round1_near (x : R) (k : Z) :
  IZR k - 1 / 2 < x * 10 < IZR k + 1 / 2 -> round1 x = IZR k / 10.
Proof. intros H. unfold round1. now rewrite (half_even_eq _ k). Qed.

Lemma round1_0 : round1 0 = 0.
Proof. rewrite (round1_IZR 0). reflexivity. Qed.

End RoundFacts.

(** ** Exponentials and powers *)

Section PowFacts.

Lemma ln_09_neg : ln 0.900 < 0.
Proof. rewrite <- ln_1. apply ln_increasing; lra. Qed.

Lemma float_pow_pos_base (x y : R) : 0 < x -> float_pow x y = Rpower x y.
Proof. intros Hx. unfold float_pow. destruct (Rlt_dec 0 x); [reflexivity | lra]. Qed.

Lemma float_pow_09_range (t : R) : 0 < float_pow 0.900 (exp t) < 1.
Proof.
  rewrite float_pow_pos_base by lra. unfold Rpower. split.
  - apply exp_pos.
  - assert (H : exp (exp t * ln 0.900) < exp 0).
    { apply exp_increasing. pose proof (exp_pos t). pose proof ln_09_neg. nra. }
    now rewrite exp_0 in H.
Qed.

(** For a base below one the power decreases with the exponent. *)
Lemma float_pow_09_antitone (u v : R) :
  u <= v -> float_pow 0.900 v <= float_pow 0.900 u.
Proof.
  intros Huv. rewrite !float_pow_pos_base by lra. unfold Rpower.
  pose proof ln_09_neg.
  destruct (Req_dec_T (v * ln 0.900) (u * ln 0.900)) as [-> | Hne]; [lra |].
  left. apply exp_increasing. nra.
Qed.

Lemma float_pow_09_nat (n : nat) : float_pow 0.900 (INR n) = 0.900 ^ n.
Proof. rewrite float_pow_pos_base by lra. apply Rpower_pow. lra. Qed.

Lemma exp_mult_nat (n : nat) (x : R) : exp (INR n * x) = exp x ^ n.
Proof.
  induction n as [| n IH].
  - simpl. rewrite Rmult_0_l. apply exp_0.
  - rewrite S_INR, Rmult_plus_distr_r, Rmult_1_l, exp_plus, IH. simpl. ring.
Qed.

(** [(1 + x/n)^n <= exp x], the bound used to evaluate [exp] from below. *)
Lemma exp_ge_pow (n : nat) (x : R) :
  (0 < n)%nat -> 0 <= 1 + x / INR n -> (1 + x / INR n) ^ n <= exp x.
Proof.
  intros Hn Hx.
  assert (HnR : 0 < INR n) by (apply lt_0_INR; exact Hn).
  replace x with (INR n * (x / INR n)) at 2 by (field; lra).
  rewrite exp_mult_nat. apply pow_incr. split; [exact Hx |].
  apply exp_ineq1_le.
Qed.

Lemma exp_le_mono (x y : R) : x <= y -> exp x <= exp y.
Proof.
  intros [Hlt | ->]; [left; now apply exp_increasing | right; reflexivity].
Qed.

(** [ln (1 + x) <= x] and [0 <= ln (1 + x)] for [x >= 0]. *)
Lemma ln_1p_bounds (x : R) : 0 <= x -> 0 <= ln (1 + x) <= x.
Proof.
  intros Hx. split.
  - destruct Hx as [Hx | <-].
    + rewrite <- ln_1. left. apply ln_increasing; lra.
    + rewrite Rplus_0_r, ln_1. lra.
  - destruct (Rle_dec (ln (1 + x)) x) as [H | H]; [exact H | exfalso].
    apply Rnot_le_lt in H. apply exp_increasing in H.
    rewrite exp_ln in H by lra.
    pose proof (exp_ineq1_le x). lra.
Qed.

Lemma float_pow_half (x : R) : 0 <= x -> float_pow x 0.5 = sqrt x.
Proof.
  intros [Hx | <-].
  - rewrite float_pow_pos_base by exact Hx.
    replace 0.5 with (/ 2) by lra. now apply Rpower_sqrt.
  - unfold float_pow. destruct (Rlt_dec 0 0); [lra |]. now rewrite sqrt_0.
Qed.

Lemma sqrt_unit_interval (x : R) : 0 <= x <= 1 -> x <= sqrt x <= 1.
Proof.
  intros [H0 H1].
  pose proof (sqrt_pos x) as Hs.
  pose proof (sqrt_sqrt x H0) as Hss.
  assert (Hle : sqrt x <= 1).
  { rewrite <- sqrt_1. now apply sqrt_le_1_alt. }
  split; [nra | exact Hle].
Qed.

End PowFacts.

(** ** The SMART estimator and the horizon conversion *)

Section EstimatorFacts.

(** The tail of [estimate_smart_risk], as a function of [lp - 5.8]. *)
Lemma risk_of_lp_range (y : R) :
  0 <= round1 ((1 - float_pow 0.900 (exp y)) * 100) <= 100.
Proof.
  pose proof (float_pow_09_range y) as Hp.
  split.
  - apply (round1_ge_IZR _ 0). nra.
  - apply (round1_le_IZR _ 100). nra.
Qed.

(** A linear predictor of 11.8 or more saturates the rounded risk. *)
Lemma risk_of_lp_high (y : R) :
  6 <= y -> round1 ((1 - float_pow 0.900 (exp y)) * 100) = 100.
Proof.
  intros Hy.
  assert (Hexp : 80 <= exp y).
  { apply Rle_trans with (exp 6); [| now apply exp_le_mono].
    assert (H : (1 + 6 / INR 8) ^ 8 <= exp 6)
      by (apply exp_ge_pow; [lia | simpl; lra]).
    simpl in H. lra. }
  assert (Hpow : float_pow 0.900 (exp y) <= 5 / 10000).
  { apply Rle_trans with (float_pow 0.900 (INR 80)).
    - apply float_pow_09_antitone.
      replace (INR 80) with 80 by (simpl; lra). exact Hexp.
    - rewrite float_pow_09_nat. simpl. lra. }
  pose proof (float_pow_09_range y) as Hp.
  destruct Hpow as [Hlt | Heq].
  - replace 100 with (IZR 1000 / 10) by lra.
    apply round1_near. lra.
  - (* exactly at the tie 999.5: the even neighbour is 1000 *)
    rewrite Heq. unfold round1, half_even.
    replace ((1 - 5 / 10000) * 100 * 10) with (IZR 999 + 1 / 2) by lra.
    rewrite (Zfloor_eq 999) by lra.
    destruct (Rlt_dec (IZR 999 + 1 / 2 - IZR 999) (1 / 2)); [lra |].
    destruct (Rlt_dec (1 / 2) (IZR 999 + 1 / 2 - IZR 999)); [lra |].
    simpl. lra.
Qed.

(** A linear predictor of 1.8 or less gives a risk of at most 0.7%. *)
Lemma risk_of_lp_low (y : R) :
  y <= -4 ->
  exists k : Z, (0 <= k <= 7)%Z /\
    round1 ((1 - float_pow 0.900 (exp y)) * 100) = IZR k / 10.
Proof.
  intros Hy.
  set (x := (1 - float_pow 0.900 (exp y)) * 100).
  assert (Hexp : exp y <= / 16).
  { assert (H16 : 16 <= exp (- y)).
    { apply Rle_trans with (exp 4); [| apply exp_le_mono; lra].
      assert (H : (1 + 4 / INR 4) ^ 4 <= exp 4)
        by (apply exp_ge_pow; [lia | simpl; lra]).
      simpl in H. lra. }
    rewrite exp_Ropp in H16. pose proof (exp_pos y) as Hpos.
    apply Rinv_le_contravar in H16; [| lra].
    now rewrite Rinv_inv in H16. }
  assert (Hln : - / 9 <= ln 0.900).
  { replace 0.900 with (/ (1 + / 9)) by lra.
    rewrite ln_Rinv by lra.
    pose proof (ln_1p_bounds (/ 9) ltac:(lra)). lra. }
  assert (Hx : 0 <= x <= 100 / 144).
  { unfold x. pose proof (float_pow_09_range y) as Hp.
    split; [nra |].
    rewrite float_pow_pos_base by lra. unfold Rpower.
    pose proof (exp_ineq1_le (exp y * ln 0.900)).
    pose proof (exp_pos y). nra. }
  exists (half_even (x * 10)). split; [| reflexivity].
  pose proof (half_even_bound (x * 10)) as Hb.
  pose proof (half_even_mono 0 (x * 10) ltac:(lra)) as H0.
  replace 0 with (IZR 0) in H0 by reflexivity.
  rewrite half_even_IZR in H0. split; [exact H0 |].
  apply Z.lt_succ_r. apply lt_IZR. simpl. lra.
Qed.

Lemma estimate_smart_risk_range age sex sbp total_chol hdl smoker diabetes
    egfr crp vasc_count :
  0 <= estimate_smart_risk age sex sbp total_chol hdl smoker diabetes
         egfr crp vasc_count <= 100.
Proof. unfold estimate_smart_risk. apply risk_of_lp_range. Qed.

Lemma convert_5yr_sqrt (r : R) :
  0 <= r <= 100 ->
  convert_5yr_from_10yr r = round1 ((1 - sqrt (1 - r / 100)) * 100).
Proof.
  intros Hr. unfold convert_5yr_from_10yr.
  rewrite float_pow_half by lra. reflexivity.
Qed.

Lemma convert_5yr_le (r : R) :
  one_decimal r -> 0 <= r <= 100 -> 0 <= convert_5yr_from_10yr r <= r.
Proof.
  intros Hdec Hr. rewrite convert_5yr_sqrt by exact Hr.
  pose proof (sqrt_unit_interval (1 - r / 100) ltac:(lra)) as Hs.
  split.
  - apply (round1_ge_IZR _ 0). lra.
  - apply round1_le_fix; [exact Hdec | lra].
Qed.

Lemma risk10_one_decimal (s : inputs) : one_decimal (risk10 s).
Proof. apply round1_one_decimal. Qed.

Lemma risk10_range (s : inputs) : 0 <= risk10 s <= 100.
Proof. apply estimate_smart_risk_range. Qed.

End EstimatorFacts.

(** ** The LDL projection *)

Section LdlFacts.

Lemma fold_pre_step (l : list therapy) (b : R) :
  fold_left pre_step l b = b * prod_list (map pre_factor l).
Proof.
  revert b. induction l as [| d l IH]; intros b; simpl.
  - ring.
  - rewrite IH. unfold pre_step, pre_factor. ring.
Qed.

Lemma fold_add_step (l : list therapy) (b : R) :
  fold_left add_step l b = b * prod_list (map add_factor l).
Proof.
  revert b. induction l as [| d l IH]; intros b; simpl.
  - ring.
  - rewrite IH. unfold add_step, add_factor. ring.
Qed.

Lemma prod_list_perm (l l' : list R) :
  Permutation l l' -> prod_list l = prod_list l'.
Proof.
  induction 1 as [| x l l' _ IH | x y l | l l' l'' _ IH1 _ IH2]; simpl.
  - reflexivity.
  - now rewrite IH.
  - ring.
  - now rewrite IH1.
Qed.

Lemma project_ldl_floor (b : R) (pre add : list therapy) :
  1 <= project_ldl b pre add.
Proof.
  unfold project_ldl. replace 1.0 with 1 by lra. apply Rmax_r.
Qed.

(** Baseline 3.5 mmol/L on atorvastatin 80 mg alone projects to 1.75 mmol/L. *)
Example project_ldl_atorvastatin_80 :
  project_ldl 3.5 [Atorvastatin_80] [] = 1.75.
Proof.
  unfold project_ldl, project_adjusted_ldl, pre_step. cbn [fold_left ldl_therapies].
  rewrite (Rmax_left (3.5 * (1 - 50 / 100))) by lra.
  rewrite Rmax_left by lra. lra.
Qed.

Lemma ldl_effect_skip (f b r : R) : b <= f -> ldl_effect f b r = r.
Proof.
  intros H. unfold ldl_effect. destruct (Rlt_dec f b); [lra | reflexivity].
Qed.

End LdlFacts.

(** ** The stacking engine *)

Section StackingFacts.

Variable h : horizon_t.

Lemma catalog_names_nodup : NoDup (map name interventions).
Proof.
  simpl. repeat constructor; simpl; intuition discriminate.
Qed.

Lemma catalog_complete (n : iv_name) : In n (map name interventions).
Proof. destruct n; simpl; tauto. Qed.

Lemma catalog_effects :
  Forall (fun iv => (0 < iv_effect h iv < 100)%Z) interventions.
Proof.
  unfold interventions, iv_effect.
  repeat constructor; destruct h; simpl; lia.
Qed.

Lemma catalog_effects_differ :
  Forall (fun iv => arr_5yr iv <> arr_lifetime iv) interventions.
Proof. unfold interventions. repeat constructor; simpl; lia. Qed.

Lemma iv_step_scale (sel : list iv_name) (r c : R) (iv : intervention) :
  iv_step h sel (r * c) iv = iv_step h sel r iv * c.
Proof.
  unfold iv_step. destruct (in_dec iv_name_eq_dec (name iv) sel); ring.
Qed.

Lemma fold_iv_step_scale (sel : list iv_name) (l : list intervention) (r c : R) :
  fold_left (iv_step h sel) l (r * c) = fold_left (iv_step h sel) l r * c.
Proof.
  revert r. induction l as [| iv l IH]; intros r; simpl.
  - reflexivity.
  - now rewrite iv_step_scale, IH.
Qed.

Lemma fold_iv_step_nil (l : list intervention) (r : R) :
  fold_left (iv_step h []) l r = r.
Proof. induction l as [| iv l IH]; simpl; [reflexivity | exact IH]. Qed.

Lemma fold_iv_step_nonneg (sel : list iv_name) (l : list intervention) (r : R) :
  Forall (fun iv => (0 < iv_effect h iv < 100)%Z) l ->
  0 <= r -> 0 <= fold_left (iv_step h sel) l r.
Proof.
  intros Hl. revert r.
  induction Hl as [| iv l [Hlo Hhi] _ IH]; intros r Hr; simpl.
  - exact Hr.
  - apply IH. unfold iv_step.
    destruct (in_dec iv_name_eq_dec (name iv) sel); [| exact Hr].
    apply IZR_lt in Hlo, Hhi. nra.
Qed.

(** Selecting one more intervention: exactly the catalog entry of that name
    contributes one more factor. *)
Lemma fold_iv_step_add (sel sel' : list iv_name) (n : iv_name) :
  ~ In n sel ->
  (forall m, In m sel' <-> m = n \/ In m sel) ->
  forall l : list intervention, NoDup (map name l) -> forall r : R,
    (~ In n (map name l) ->
       fold_left (iv_step h sel') l r = fold_left (iv_step h sel) l r) /\
    (forall iv, In iv l -> name iv = n ->
       fold_left (iv_step h sel') l r =
       fold_left (iv_step h sel) l r * (1 - IZR (iv_effect h iv) / 100)).
Proof.
  intros Hn Hsel'.
  induction l as [| iv0 l IH]; intros Hnd r; simpl.
  - split; [reflexivity | intros iv []].
  - inversion Hnd as [| ? ? Hnotin Hnd']; subst.
    destruct (IH Hnd' (iv_step h sel' r iv0)) as [IHout IHin].
    assert (Hother : name iv0 <> n ->
              iv_step h sel' r iv0 = iv_step h sel r iv0).
    { intros Hne. unfold iv_step.
      destruct (in_dec iv_name_eq_dec (name iv0) sel') as [H' | H'];
        destruct (in_dec iv_name_eq_dec (name iv0) sel) as [H0 | H0];
        try reflexivity; exfalso.
      - apply Hsel' in H'. destruct H'; [congruence | contradiction].
      - apply H'. apply Hsel'. now right. }
    split.
    + intros Hout. rewrite IHout by tauto. rewrite Hother by tauto.
      reflexivity.
    + intros iv [-> | Hin] Hname.
      * assert (Hout : ~ In n (map name l)) by (rewrite <- Hname; exact Hnotin).
        destruct (IH Hnd' (iv_step h sel' r iv)) as [IHout' _].
        rewrite IHout' by exact Hout.
        unfold iv_step at 2 4.
        destruct (in_dec iv_name_eq_dec (name iv) sel') as [H' | H'];
          [| exfalso; apply H'; apply Hsel'; now left].
        destruct (in_dec iv_name_eq_dec (name iv) sel) as [H0 | H0];
          [exfalso; rewrite Hname in H0; contradiction |].
        apply fold_iv_step_scale.
      * assert (Hne : name iv0 <> n).
        { intros Heq. apply Hnotin. rewrite Heq, <- Hname.
          now apply in_map. }
        rewrite (IHin iv Hin Hname). now rewrite Hother.
Qed.

End StackingFacts.

(** ** Facts about one calculation *)

Section CalculationFacts.

Variable s : inputs.

Lemma risk5_range : 0 <= risk5 s <= risk10 s.
Proof.
  unfold risk5. apply convert_5yr_le;
    [apply risk10_one_decimal | apply risk10_range].
Qed.

Lemma baseline_risk_one_decimal : one_decimal (baseline_risk s).
Proof.
  unfold baseline_risk. destruct (is_5yr (horizon s));
    apply round1_one_decimal.
Qed.

Lemma baseline_risk_range : 0 <= baseline_risk s <= 100.
Proof.
  unfold baseline_risk. pose proof risk5_range. pose proof (risk10_range s).
  destruct (is_5yr (horizon s)); lra.
Qed.

Lemma caps_range : 80 <= IZR (caps (horizon s)) <= 90.
Proof. destruct (horizon s); simpl; lra. Qed.

Lemma baseline_risk_capped_one_decimal : one_decimal (baseline_risk_capped s).
Proof.
  unfold baseline_risk_capped, Rmin.
  destruct (Rle_dec (baseline_risk s) (IZR (caps (horizon s)))).
  - apply baseline_risk_one_decimal.
  - exists (caps (horizon s) * 10)%Z. rewrite mult_IZR. lra.
Qed.

Lemma baseline_risk_capped_range :
  0 <= baseline_risk_capped s <= IZR (caps (horizon s)).
Proof.
  unfold baseline_risk_capped, Rmin.
  pose proof baseline_risk_range. pose proof caps_range.
  destruct (Rle_dec (baseline_risk s) (IZR (caps (horizon s)))); lra.
Qed.

Lemma remaining_ivs_nonneg : 0 <= remaining_ivs s.
Proof.
  unfold remaining_ivs. apply fold_iv_step_nonneg.
  - apply catalog_effects.
  - pose proof baseline_risk_capped_range. lra.
Qed.

End CalculationFacts.

Section EffectFacts.

Lemma ldl_factor_range (f b : R) : 0 <= Spec.ldl_factor f b <= 35.
Proof.
  unfold Spec.ldl_factor, Rmin. destruct (Rlt_dec f b); [| lra].
  destruct (Rle_dec (22 * (b - f)) 35); lra.
Qed.

Lemma bp_factor_range (t c : Z) : 0 <= Spec.bp_factor t c <= 20.
Proof.
  unfold Spec.bp_factor, Rmin. destruct (Z_lt_dec t c) as [H | H]; [| lra].
  assert (0 < IZR (c - t)) by (apply IZR_lt; lia).
  destruct (Rle_dec (15 * (IZR (c - t) / 10)) 20); lra.
Qed.

Lemma glycaemic_factor_range (a : R) : 0 <= Spec.glycaemic_factor a <= 30.
Proof.
  unfold Spec.glycaemic_factor, Rmin. destruct (Rlt_dec 7 a); [| lra].
  destruct (Rle_dec ((a - 7) * 9) 30); lra.
Qed.

Lemma ldl_effect_factor (f b r : R) :
  ldl_effect f b r = r * (1 - Spec.ldl_factor f b / 100).
Proof.
  unfold ldl_effect, Spec.ldl_factor. destruct (Rlt_dec f b); [reflexivity | lra].
Qed.

Lemma bp_effect_factor (t c : Z) (r : R) :
  bp_effect t c r = r * (1 - Spec.bp_factor t c / 100).
Proof.
  unfold bp_effect, Spec.bp_factor. destruct (Z_lt_dec t c); [reflexivity | lra].
Qed.

Lemma rrr_hba1c_spec (a : R) : rrr_hba1c a = Spec.glycaemic_factor a.
Proof.
  unfold rrr_hba1c, Spec.glycaemic_factor.
  replace 7.0 with 7 by lra. reflexivity.
Qed.

Lemma hba1c_effect_factor (a r : R) :
  hba1c_effect a r = r * (1 - Spec.glycaemic_factor a / 100).
Proof.
  unfold hba1c_effect. rewrite rrr_hba1c_spec. unfold Spec.glycaemic_factor.
  replace 7.0 with 7 by lra. destruct (Rlt_dec 7 a); [reflexivity | lra].
Qed.

Lemma remaining_scale (s : inputs) :
  remaining s = remaining_ivs s * physio_scale s.
Proof.
  unfold remaining, physio_scale.
  rewrite hba1c_effect_factor, bp_effect_factor, ldl_effect_factor. ring.
Qed.

Lemma physio_scale_range (s : inputs) : 0 < physio_scale s <= 1.
Proof.
  unfold physio_scale.
  pose proof (ldl_factor_range (final_ldl s) (baseline_ldl s)).
  pose proof (bp_factor_range (sbp_target s) (sbp_current s)).
  pose proof (glycaemic_factor_range (hba1c s)).
  split.
  - repeat apply Rmult_lt_0_compat; lra.
  - set (a := Spec.ldl_factor _ _) in *.
    set (b := Spec.bp_factor _ _) in *.
    set (c := Spec.glycaemic_factor _) in *.
    assert (Ha : 0 < 1 - a / 100 <= 1) by lra.
    assert (Hb : 0 < 1 - b / 100 <= 1) by lra.
    assert (Hc : 0 < 1 - c / 100 <= 1) by lra.
    assert (Hab : 0 < (1 - a / 100) * (1 - b / 100) <= 1) by nra.
    nra.
Qed.

Lemma physio_scale_with_ivs (s : inputs) (sel : list iv_name) :
  physio_scale (with_ivs s sel) = physio_scale s.
Proof. reflexivity. Qed.

Lemma remaining_nonneg (s : inputs) : 0 <= remaining s.
Proof.
  rewrite remaining_scale.
  pose proof (remaining_ivs_nonneg s). pose proof (physio_scale_range s).
  nra.
Qed.

(** Nothing selected and no physiological effect: the running probability
    is the capped baseline. *)
Lemma remaining_identity (s : inputs) :
  ivs s = [] ->
  ~ final_ldl s < baseline_ldl s ->
  ~ (sbp_target s < sbp_current s)%Z ->
  hba1c s <= 7 ->
  remaining s = baseline_risk_capped s / 100.
Proof.
  intros Hivs Hldl Hbp Hg.
  unfold remaining, hba1c_effect, bp_effect, ldl_effect, remaining_ivs.
  rewrite Hivs, fold_iv_step_nil.
  destruct (Rlt_dec 7.0 (hba1c s)); [lra |].
  destruct (Z_lt_dec (sbp_target s) (sbp_current s)); [contradiction |].
  destruct (Rlt_dec (final_ldl s) (baseline_ldl s)); [contradiction |].
  reflexivity.
Qed.

Lemma project_ldl_nil (b : R) : b <= project_ldl b [] [].
Proof.
  unfold project_ldl, project_adjusted_ldl. simpl.
  eapply Rle_trans; [apply Rmax_l | apply Rmax_l].
Qed.

(** One more selected intervention contributes the factor of its entry. *)
Lemma remaining_add_iv (s : inputs) (n : iv_name) (sel' : list iv_name) :
  ~ In n (ivs s) ->
  (forall m, In m sel' <-> m = n \/ In m (ivs s)) ->
  exists iv, In iv interventions /\ name iv = n /\
    remaining (with_ivs s sel') =
    remaining s * (1 - IZR (iv_effect (horizon s) iv) / 100).
Proof.
  intros Hn Hsel'.
  pose proof (catalog_complete n) as Hin.
  apply in_map_iff in Hin. destruct Hin as [iv [Hname Hiv]].
  exists iv. split; [exact Hiv |]. split; [exact Hname |].
  rewrite !remaining_scale, physio_scale_with_ivs.
  unfold remaining_ivs. cbn [with_ivs horizon ivs].
  change (baseline_risk_capped (with_ivs s sel')) with (baseline_risk_capped s).
  destruct (fold_iv_step_add (horizon s) (ivs s) sel' n Hn Hsel'
              interventions catalog_names_nodup
              (baseline_risk_capped s / 100)) as [_ Hadd].
  rewrite (Hadd iv Hiv Hname). ring.
Qed.

End EffectFacts.

(** ** The sample sidebars *)

Section Samples.

Ltac prove_valid :=
  constructor; cbn;
  try lia; try lra;
  try (repeat constructor; cbn; intuition discriminate);
  try (intros ? Hin; cbn in *; intuition (subst; discriminate)).

Lemma valid_scenario_default : valid scenario_default.
Proof. prove_valid. Qed.

Lemma valid_profile_high : valid profile_high.
Proof. prove_valid. Qed.

Lemma valid_profile_low : valid profile_low.
Proof. prove_valid. Qed.

Lemma valid_profile_low_ldl : valid profile_low_ldl.
Proof. prove_valid. Qed.

Lemma valid_profile_low_stress :
  valid (with_ivs profile_low [Stress_reduction]).
Proof. prove_valid. Qed.

Lemma risk10_profile_high : risk10 profile_high = 100.
Proof.
  unfold risk10, estimate_smart_risk, vasc_count, profile_high.
  cbn [age sex sbp_current total_chol hdl smoker diabetes egfr crp vasc
       fold_left b2z Z.add Pos.add Pos.succ].
  apply risk_of_lp_high.
  destruct (Req_dec_T 5.0 0) as [H | _]; [lra |].
  pose proof (ln_1p_bounds 5.0 ltac:(lra)) as Hln.
  replace (5.0 + 1) with (1 + 5.0) by lra. lra.
Qed.

Lemma risk10_profile_low :
  exists k : Z, (0 <= k <= 7)%Z /\ risk10 profile_low = IZR k / 10.
Proof.
  unfold risk10, estimate_smart_risk, vasc_count, profile_low.
  cbn [age sex sbp_current total_chol hdl smoker diabetes egfr crp vasc
       fold_left b2z Z.add Pos.add Pos.succ].
  apply risk_of_lp_low.
  destruct (Req_dec_T 0.1 0) as [H | _]; [lra |].
  pose proof (ln_1p_bounds 0.1 ltac:(lra)) as Hln.
  replace (0.1 + 1) with (1 + 0.1) by lra. lra.
Qed.

End Samples.

(* ================================================================== *)
(** * The claims *)

(** C1. In the stacking engine the LDL, blood-pressure and glycaemic factors
    each multiply the running probability once, with the percentage capped
    beforehand: min(22 x drop, 35) when the projected LDL is below the
    baseline, min(15 x (drop / 10), 20) when the target SBP is below the
    current SBP, min((HbA1c - 7.0) x 9, 30) when HbA1c exceeds 7.0, and
    otherwise a percentage of exactly 0; no percentage is negative. *)
Theorem stacking_factors (s : inputs) :
  remaining s =
    remaining_ivs s
    * (1 - Spec.ldl_factor (final_ldl s) (baseline_ldl s) / 100)
    * (1 - Spec.bp_factor (sbp_target s) (sbp_current s) / 100)
    * (1 - Spec.glycaemic_factor (hba1c s) / 100)
  /\ 0 <= Spec.ldl_factor (final_ldl s) (baseline_ldl s) <= 35
  /\ 0 <= Spec.bp_factor (sbp_target s) (sbp_current s) <= 20
  /\ 0 <= Spec.glycaemic_factor (hba1c s) <= 30
  /\ rrr_hba1c (hba1c s) = Spec.glycaemic_factor (hba1c s)
  /\ (if Rle_dec (hba1c s) 7 then rrr_hba1c (hba1c s) = 0
      else rrr_hba1c (hba1c s) = Rmin ((hba1c s - 7) * 9) 30).
Proof.
  split; [| repeat split].
  - rewrite remaining_scale. unfold physio_scale. ring.
  - apply ldl_factor_range.
  - apply ldl_factor_range.
  - apply bp_factor_range.
  - apply bp_factor_range.
  - apply glycaemic_factor_range.
  - apply glycaemic_factor_range.
  - apply rrr_hba1c_spec.
  - rewrite rrr_hba1c_spec. unfold Spec.glycaemic_factor.
    destruct (Rle_dec (hba1c s) 7); destruct (Rlt_dec 7 (hba1c s));
      try reflexivity; lra.
Qed.

(** C2. With no intervention selected, the projected LDL not below the
    baseline LDL, the target SBP not below the current SBP and HbA1c at
    most 7.0, the final risk is the capped baseline risk and both ARR and
    RRR are 0. *)
Theorem identity_case (s : inputs) :
  ivs s = [] ->
  ~ final_ldl s < baseline_ldl s ->
  ~ (sbp_target s < sbp_current s)%Z ->
  hba1c s <= 7 ->
  final_risk s = baseline_risk_capped s /\ arr s = 0 /\ rrr s = 0.
Proof.
  intros Hivs Hldl Hbp Hg.
  assert (Hfinal : final_risk s = baseline_risk_capped s).
  { unfold final_risk. rewrite (remaining_identity s Hivs Hldl Hbp Hg).
    replace (baseline_risk_capped s / 100 * 100)
      with (baseline_risk_capped s) by lra.
    apply round1_fix, baseline_risk_capped_one_decimal. }
  assert (Harr : arr s = 0).
  { unfold arr. rewrite Hfinal.
    replace (baseline_risk_capped s - baseline_risk_capped s) with 0 by lra.
    apply round1_0. }
  repeat split; [exact Hfinal | exact Harr |].
  unfold rrr. destruct (Req_dec_T (baseline_risk_capped s) 0); [reflexivity |].
  rewrite Harr.
  replace (0 / baseline_risk_capped s * 100) with 0 by (field; assumption).
  rewrite Rmin_left by lra. apply round1_0.
Qed.

Lemma identity_case_witness :
  final_risk scenario_default = baseline_risk_capped scenario_default
  /\ arr scenario_default = 0 /\ rrr scenario_default = 0.
Proof.
  apply identity_case.
  - reflexivity.
  - apply Rle_not_lt. apply project_ldl_nil.
  - cbn. lia.
  - cbn. lra.
Defined.

(** C3, as the code has it. The 10-year risk lies in [0, 100], the upper end
    included because the figure is rounded to one decimal; the 5-year risk
    is the rounded constant-hazard conversion of the 10-year figure and
    never exceeds it. *)
Theorem horizon_conversion (s : inputs) :
  0 <= risk10 s <= 100
  /\ risk5 s = round1 ((1 - sqrt (1 - risk10 s / 100)) * 100)
  /\ 0 <= risk5 s <= risk10 s.
Proof.
  split; [apply risk10_range |]. split; [| apply risk5_range].
  unfold risk5. apply convert_5yr_sqrt, risk10_range.
Qed.

(** C3 as stated fails: a valid profile whose rounded 10-year risk is 100. *)
Lemma risk10_reaches_100 :
  valid profile_high /\ risk10 profile_high = 100
  /\ ~ (0 <= risk10 profile_high < 100).
Proof.
  split; [exact valid_profile_high |].
  split; [exact risk10_profile_high |].
  rewrite risk10_profile_high. lra.
Qed.

(** C4. The baseline risk is the minimum of the horizon's risk figure and
    the horizon's ceiling (80 for five years, 85 for ten years, 90 for
    lifetime); the figure entering the minimum is already rounded to one
    decimal. *)
Theorem baseline_cap (s : inputs) :
  baseline_risk_capped s =
    Rmin (baseline_risk s)
         (match horizon s with H5yr => 80 | H10yr => 85 | Hlifetime => 90 end)
  /\ baseline_risk s =
       (match horizon s with H5yr => risk5 s | _ => risk10 s end)
  /\ one_decimal (baseline_risk s)
  /\ baseline_risk_capped s <= IZR (caps (horizon s)).
Proof.
  repeat split.
  - unfold baseline_risk_capped. destruct (horizon s); reflexivity.
  - unfold baseline_risk. destruct (horizon s); reflexivity.
  - apply baseline_risk_one_decimal.
  - apply baseline_risk_capped_range.
Qed.

(** C5. The projected LDL is the baseline times the factors (1 - pct/100) of
    the pre-admission therapies, floored at 1.0, times the factors of the
    add-on therapies at half their catalog percentage, floored at 1.0
    again; it is never below 1.0. *)
Theorem ldl_projection_floor (b : R) (pre add : list therapy) :
  project_ldl b pre add =
    Rmax (Rmax (b * prod_list
                  (map (fun d => 1 - IZR (ldl_therapies d) / 100) pre)) 1
          * prod_list
              (map (fun d => 1 - (IZR (ldl_therapies d) / 2) / 100) add)) 1
  /\ 1 <= project_ldl b pre add.
Proof.
  split; [| apply project_ldl_floor].
  unfold project_ldl, project_adjusted_ldl.
  rewrite fold_add_step, fold_pre_step.
  replace 1.0 with 1 by lra.
  f_equal. f_equal. f_equal.
  apply map_ext. intros d. unfold add_factor. lra.
Qed.

(** C6. RRR is min(ARR / baseline x 100, 75) rounded to one decimal when the
    capped baseline is nonzero and 0 when it is 0; it never exceeds 75. *)
Theorem rrr_capped (s : inputs) :
  (baseline_risk_capped s <> 0 ->
     rrr s = round1 (Rmin (arr s / baseline_risk_capped s * 100) 75))
  /\ (baseline_risk_capped s = 0 -> rrr s = 0)
  /\ rrr s <= 75.
Proof.
  unfold rrr.
  destruct (Req_dec_T (baseline_risk_capped s) 0) as [Hz | Hnz];
    repeat split; try tauto; try lra.
  apply (round1_le_IZR _ 75). apply Rmin_r.
Qed.

(** C7. The LDL projection does not depend on the order of the
    pre-admission therapies: any permutation of them gives the same
    intermediate and the same projected LDL. *)
Theorem ldl_order_invariant (b : R) (pre pre' add : list therapy) :
  Permutation pre pre' ->
  fold_left pre_step pre b = fold_left pre_step pre' b
  /\ project_ldl b pre add = project_ldl b pre' add.
Proof.
  intros Hperm.
  assert (Hfold : fold_left pre_step pre b = fold_left pre_step pre' b).
  { rewrite !fold_pre_step. f_equal.
    apply prod_list_perm. now apply Permutation_map. }
  split; [exact Hfold |].
  unfold project_ldl, project_adjusted_ldl. now rewrite Hfold.
Qed.

Lemma ldl_order_invariant_witness :
  fold_left pre_step [Atorvastatin_80; Ezetimibe] 3.5 =
  fold_left pre_step [Ezetimibe; Atorvastatin_80] 3.5
  /\ project_ldl 3.5 [Atorvastatin_80; Ezetimibe] [Bempedoic_acid] =
     project_ldl 3.5 [Ezetimibe; Atorvastatin_80] [Bempedoic_acid].
Proof.
  apply (ldl_order_invariant 3.5 [Atorvastatin_80; Ezetimibe]
           [Ezetimibe; Atorvastatin_80] [Bempedoic_acid]).
  apply perm_swap.
Defined.

(** C8, as the code has it. Selecting one more non-lipid intervention
    multiplies the running probability by (1 - effect/100) for the positive
    catalog effect of that intervention, so the running probability does
    not increase, strictly decreases when the capped baseline is positive,
    and the reported one-decimal final risk does not increase. *)
Theorem adding_intervention_never_increases
    (s : inputs) (n : iv_name) (Hn : ~ In n (ivs s)) :
  exists iv, In iv interventions /\ name iv = n
    /\ (0 < iv_effect (horizon s) iv < 100)%Z
    /\ remaining (with_ivs s (n :: ivs s)) =
       remaining s * (1 - IZR (iv_effect (horizon s) iv) / 100)
    /\ remaining (with_ivs s (n :: ivs s)) <= remaining s
    /\ (0 < remaining s -> remaining (with_ivs s (n :: ivs s)) < remaining s)
    /\ final_risk (with_ivs s (n :: ivs s)) <= final_risk s.
Proof.
  destruct (remaining_add_iv s n (n :: ivs s) Hn) as [iv [Hiv [Hname Hrem]]].
  { intros m. simpl. split; intros [H | H]; auto. }
  pose proof (catalog_effects (horizon s)) as Heff.
  rewrite Forall_forall in Heff. specialize (Heff iv Hiv).
  destruct Heff as [Hlo Hhi]. pose proof (IZR_lt _ _ Hlo) as HloR.
  pose proof (IZR_lt _ _ Hhi) as HhiR.
  pose proof (remaining_nonneg s) as Hnn.
  exists iv. repeat split; try assumption.
  - rewrite Hrem. nra.
  - intros Hpos. rewrite Hrem. nra.
  - unfold final_risk. apply round1_mono. rewrite Hrem. nra.
Qed.

Lemma adding_intervention_never_increases_witness :
  exists iv, In iv interventions /\ name iv = Stress_reduction
    /\ (0 < iv_effect (horizon profile_low) iv < 100)%Z
    /\ remaining (with_ivs profile_low [Stress_reduction]) =
       remaining profile_low
       * (1 - IZR (iv_effect (horizon profile_low) iv) / 100)
    /\ remaining (with_ivs profile_low [Stress_reduction])
       <= remaining profile_low
    /\ (0 < remaining profile_low ->
        remaining (with_ivs profile_low [Stress_reduction])
        < remaining profile_low)
    /\ final_risk (with_ivs profile_low [Stress_reduction])
       <= final_risk profile_low.
Proof.
  apply (adding_intervention_never_increases profile_low Stress_reduction).
  simpl. tauto.
Defined.

(** C8 as stated fails: for a valid low-risk profile, selecting stress
    reduction leaves the reported final risk unchanged. *)
Lemma adding_intervention_not_strict :
  valid profile_low
  /\ valid (with_ivs profile_low [Stress_reduction])
  /\ ~ In Stress_reduction (ivs profile_low)
  /\ final_risk (with_ivs profile_low [Stress_reduction])
     = final_risk profile_low
  /\ ~ (final_risk (with_ivs profile_low [Stress_reduction])
        < final_risk profile_low).
Proof.
  assert (Heq : final_risk (with_ivs profile_low [Stress_reduction])
                = final_risk profile_low).
  { destruct risk10_profile_low as [k [Hk Hrisk]].
    assert (Hbase : baseline_risk_capped profile_low = IZR k / 10).
    { unfold baseline_risk_capped, baseline_risk.
      cbn [horizon profile_low is_5yr caps]. rewrite Hrisk.
      apply Rmin_left.
      assert (IZR k <= 7) by (apply IZR_le; lia). lra. }
    assert (Hrem : remaining profile_low = IZR k / 10 / 100).
    { rewrite <- Hbase. apply remaining_identity.
      - reflexivity.
      - apply Rle_not_lt. apply project_ldl_nil.
      - cbn. lia.
      - cbn. lra. }
    destruct (remaining_add_iv profile_low Stress_reduction [Stress_reduction])
      as [iv [Hiv [Hname Hadd]]].
    { simpl. tauto. }
    { intros m. simpl. intuition congruence. }
    assert (Heff : iv_effect (horizon profile_low) iv = 3%Z).
    { simpl in Hiv.
      repeat (destruct Hiv as [<- | Hiv]; [try discriminate Hname |]);
        try reflexivity.
      contradiction. }
    unfold final_risk. rewrite Hadd, Heff, Hrem.
    replace (IZR k / 10 / 100 * 100) with (IZR k / 10) by lra.
    rewrite round1_tenth. apply round1_near.
    assert (0 <= IZR k <= 7) by (split; apply IZR_le; lia). lra. }
  split; [exact valid_profile_low |].
  split; [exact valid_profile_low_stress |].
  split; [simpl; tauto |].
  split; [exact Heq |].
  rewrite Heq. lra.
Qed.

(** C9. With the ten-year horizon the stacking engine applies the lifetime
    effect of every selected intervention; the 5-year value of a catalog
    entry is the applied effect only for the five-year horizon, and the
    ten-year and lifetime horizons apply the same effect. *)
Theorem ten_year_uses_lifetime_effect (s : inputs) (Hh : horizon s = H10yr) :
  remaining_ivs s =
    fold_left
      (fun r iv =>
         if in_dec iv_name_eq_dec (name iv) (ivs s)
         then r * (1 - IZR (arr_lifetime iv) / 100) else r)
      interventions (baseline_risk_capped s / 100)
  /\ (forall iv, iv_effect (horizon s) iv = arr_lifetime iv)
  /\ (forall iv, iv_effect H10yr iv = iv_effect Hlifetime iv)
  /\ (forall h iv, In iv interventions ->
        (iv_effect h iv = arr_5yr iv <-> h = H5yr)).
Proof.
  repeat split.
  - unfold remaining_ivs. rewrite Hh. reflexivity.
  - intros iv. rewrite Hh. reflexivity.
  - intros Heq. pose proof catalog_effects_differ as Hd.
    rewrite Forall_forall in Hd. specialize (Hd iv H).
    destruct h; [reflexivity | |]; unfold iv_effect in Heq; simpl in Heq;
      congruence.
  - intros ->. reflexivity.
Qed.

Lemma ten_year_uses_lifetime_effect_witness :
  remaining_ivs (with_ivs scenario_default [Smoking_cessation]) =
    fold_left
      (fun r iv =>
         if in_dec iv_name_eq_dec (name iv) [Smoking_cessation]
         then r * (1 - IZR (arr_lifetime iv) / 100) else r)
      interventions
      (baseline_risk_capped (with_ivs scenario_default [Smoking_cessation])
       / 100)
  /\ (forall iv, iv_effect H10yr iv = arr_lifetime iv)
  /\ (forall iv, iv_effect H10yr iv = iv_effect Hlifetime iv)
  /\ (forall h iv, In iv interventions ->
        (iv_effect h iv = arr_5yr iv <-> h = H5yr)).
Proof.
  apply (ten_year_uses_lifetime_effect
           (with_ivs scenario_default [Smoking_cessation])).
  reflexivity.
Defined.

(** C10. The LDL factor is applied only when the projected LDL is strictly
    below the baseline LDL. With a baseline LDL of at most 1.0 mmol/L the
    floor keeps the projected LDL at or above the baseline whatever the
    therapies, so the LDL factor is never applied. *)
Theorem ldl_floor_blocks_effect (s : inputs) (r : R)
    (Hb : baseline_ldl s <= 1) :
  baseline_ldl s <= final_ldl s
  /\ ldl_effect (final_ldl s) (baseline_ldl s) r = r
  /\ Spec.ldl_factor (final_ldl s) (baseline_ldl s) = 0
  /\ remaining s =
       hba1c_effect (hba1c s)
         (bp_effect (sbp_target s) (sbp_current s) (remaining_ivs s))
  /\ (forall f b r', b <= f -> ldl_effect f b r' = r').
Proof.
  assert (Hle : baseline_ldl s <= final_ldl s).
  { pose proof (project_ldl_floor (baseline_ldl s) (pre_tx s) (add_tx s)).
    unfold final_ldl. lra. }
  split; [exact Hle |].
  split; [now apply ldl_effect_skip |].
  split.
  { unfold Spec.ldl_factor.
    destruct (Rlt_dec (final_ldl s) (baseline_ldl s)); [lra | reflexivity]. }
  split.
  { unfold remaining. now rewrite ldl_effect_skip. }
  intros f b r' H. now apply ldl_effect_skip.
Qed.

Lemma ldl_floor_blocks_effect_witness :
  baseline_ldl profile_low_ldl <= final_ldl profile_low_ldl
  /\ ldl_effect (final_ldl profile_low_ldl) (baseline_ldl profile_low_ldl) 0.2
     = 0.2
  /\ Spec.ldl_factor (final_ldl profile_low_ldl)
       (baseline_ldl profile_low_ldl) = 0
  /\ remaining profile_low_ldl =
       hba1c_effect (hba1c profile_low_ldl)
         (bp_effect (sbp_target profile_low_ldl) (sbp_current profile_low_ldl)
            (remaining_ivs profile_low_ldl))
  /\ (forall f b r', b <= f -> ldl_effect f b r' = r').
Proof.
  apply (ldl_floor_blocks_effect profile_low_ldl 0.2).
  cbn. lra.
Defined.

(* ================================================================== *)
(** * Further properties of the calculation *)

(** ** The estimator *)

Section EstimatorMore.

Lemma risk_of_lp_mono (y y' : R) :
  y <= y' ->
  round1 ((1 - float_pow 0.900 (exp y)) * 100)
  <= round1 ((1 - float_pow 0.900 (exp y')) * 100).
Proof.
  intros Hy. apply round1_mono.
  pose proof (float_pow_09_antitone (exp y) (exp y') (exp_le_mono _ _ Hy)).
  lra.
Qed.

Lemma crp_log_mono (c c' : R) :
  0 <= c <= c' ->
  (if Req_dec_T c 0 then 0 else ln (c + 1))
  <= (if Req_dec_T c' 0 then 0 else ln (c' + 1)).
Proof.
  intros [H0 Hc].
  destruct (Req_dec_T c 0) as [Hz | Hnz]; destruct (Req_dec_T c' 0) as [Hz' | Hnz'].
  - lra.
  - replace (c' + 1) with (1 + c') by lra.
    apply (ln_1p_bounds c'). lra.
  - lra.
  - destruct Hc as [Hlt | ->]; [| lra].
    left. apply ln_increasing; lra.
Qed.

(** A linear predictor of 0.87 or more gives a rounded risk of at least
    0.1%. *)
Lemma risk_of_lp_floor (y : R) :
  -4.93 <= y -> 0.1 <= round1 ((1 - float_pow 0.900 (exp y)) * 100).
Proof.
  intros Hy.
  assert (Hexp : 59 / 10000 <= exp y).
  { apply Rle_trans with (exp (-4.93)); [| now apply exp_le_mono].
    assert (H : (1 + -4.93 / INR 64) ^ 64 <= exp (-4.93))
      by (apply exp_ge_pow; [lia | simpl; lra]).
    simpl in H. lra. }
  assert (Hln : ln 0.900 <= - (1 / 10)).
  { pose proof (exp_ineq1_le (ln 0.900)) as H.
    rewrite exp_ln in H by lra. lra. }
  set (u := exp y * ln 0.900).
  assert (Hu : u <= - (59 / 100000)) by (unfold u; nra).
  assert (Hw : exp u * (1 - u) <= 1).
  { pose proof (exp_ineq1_le (- u)) as H1.
    pose proof (exp_pos u) as Hpos.
    assert (Hinv : exp u * exp (- u) = 1).
    { rewrite exp_Ropp. field. lra. }
    nra. }
  pose proof (exp_pos u) as Hpos.
  assert (Hx : 1 / 2 < (1 - float_pow 0.900 (exp y)) * 100 * 10).
  { rewrite float_pow_pos_base by lra. unfold Rpower. fold u. nra. }
  unfold round1.
  pose proof (half_even_bound ((1 - float_pow 0.900 (exp y)) * 100 * 10)) as Hb.
  assert (Hk : (1 <= half_even ((1 - float_pow 0.900 (exp y)) * 100 * 10))%Z).
  { apply Z.lt_pred_le. apply lt_IZR. simpl. lra. }
  apply IZR_le in Hk. lra.
Qed.

Lemma convert_5yr_floor (r : R) :
  0.1 <= r <= 100 -> 0.1 <= convert_5yr_from_10yr r.
Proof.
  intros Hr. rewrite convert_5yr_sqrt by lra.
  set (q := sqrt (1 - r / 100)).
  assert (Hq0 : 0 <= q) by apply sqrt_pos.
  assert (Hqq : q * q = 1 - r / 100) by (apply sqrt_sqrt; lra).
  assert (Hq : q < 0.9995) by nra.
  unfold round1.
  pose proof (half_even_bound ((1 - q) * 100 * 10)) as Hb.
  assert (Hk : (1 <= half_even ((1 - q) * 100 * 10))%Z).
  { apply Z.lt_pred_le. apply lt_IZR. simpl. lra. }
  apply IZR_le in Hk. lra.
Qed.

Lemma convert_5yr_mono (r r' : R) :
  0 <= r <= r' -> r' <= 100 ->
  convert_5yr_from_10yr r <= convert_5yr_from_10yr r'.
Proof.
  intros Hr Hr'. rewrite !convert_5yr_sqrt by lra.
  apply round1_mono.
  assert (sqrt (1 - r' / 100) <= sqrt (1 - r / 100))
    by (apply sqrt_le_1_alt; lra).
  lra.
Qed.

Lemma vasc_sum_range (l : list bool) (a : Z) :
  (a <= fold_left (fun acc b => acc + b2z b) l a <= a + Z.of_nat (length l))%Z.
Proof.
  revert a. induction l as [| b l IH]; intros a.
  - simpl. lia.
  - cbn [fold_left length]. specialize (IH (a + b2z b)%Z).
    destruct b; unfold b2z in *; lia.
Qed.

End EstimatorMore.

(** X1. The estimator is monotone in every input: a profile that is at least
    as old, has at least the SBP, total cholesterol, CRP and vascular-bed
    count, at most the HDL and eGFR, and keeps male sex, smoking and
    diabetes where the other has them, never gets a lower 10-year risk. *)
Theorem estimate_smart_risk_monotone
    (age age' : Z) (sex sex' : sex_t) (sbp sbp' : Z)
    (total_chol total_chol' hdl hdl' : R)
    (smoker smoker' diabetes diabetes' : bool) (egfr egfr' : Z)
    (crp crp' : R) (vasc_count vasc_count' : Z) :
  (age <= age')%Z ->
  (sex = Male -> sex' = Male) ->
  (sbp <= sbp')%Z ->
  total_chol <= total_chol' ->
  hdl' <= hdl ->
  Bool.le smoker smoker' ->
  Bool.le diabetes diabetes' ->
  (egfr' <= egfr)%Z ->
  0 <= crp <= crp' ->
  (vasc_count <= vasc_count')%Z ->
  estimate_smart_risk age sex sbp total_chol hdl smoker diabetes egfr crp
    vasc_count
  <= estimate_smart_risk age' sex' sbp' total_chol' hdl' smoker' diabetes'
       egfr' crp' vasc_count'.
Proof.
  intros Hage Hsex Hsbp Htc Hhdl Hsm Hdm Hegfr Hcrp Hvc.
  unfold estimate_smart_risk. apply risk_of_lp_mono.
  pose proof (crp_log_mono crp crp' Hcrp) as Hlog.
  apply IZR_le in Hage, Hsbp, Hegfr, Hvc.
  assert (Hs : IZR (match sex with Male => 1 | Female => 0 end)
               <= IZR (match sex' with Male => 1 | Female => 0 end)).
  { destruct sex; [rewrite (Hsex eq_refl); lra |].
    destruct sex'; lra. }
  assert (Hsmk : IZR (if smoker then 1 else 0)
                 <= IZR (if smoker' then 1 else 0)).
  { destruct smoker, smoker'; simpl in Hsm; try discriminate; lra. }
  assert (Hdia : IZR (if diabetes then 1 else 0)
                 <= IZR (if diabetes' then 1 else 0)).
  { destruct diabetes, diabetes'; simpl in Hdm; try discriminate; lra. }
  lra.
Qed.

Lemma estimate_smart_risk_monotone_witness :
  estimate_smart_risk 60 Female 140 5.0 1.2 false false 80 2.0 0
  <= estimate_smart_risk 70 Male 150 6.0 1.0 true true 60 3.0 2.
Proof.
  apply estimate_smart_risk_monotone; simpl; try lia; try lra;
    try reflexivity; try discriminate.
Defined.

(** X2. Within the widget ranges the rounded 10-year and 5-year risks are at
    least 0.1, so the capped baseline is positive for every horizon and the
    zero guard of the RRR is never taken. *)
Theorem valid_baseline_positive (s : inputs) (Hv : valid s) :
  0.1 <= risk10 s
  /\ 0.1 <= risk5 s
  /\ 0.1 <= baseline_risk_capped s
  /\ rrr s = round1 (Rmin (arr s / baseline_risk_capped s * 100) 75).
Proof.
  destruct Hv as [Hage Hegfr Hvasc Hchol Hhdl Hcrp _ _ Hsbp _ _ _ _ _].
  assert (H10 : 0.1 <= risk10 s).
  { unfold risk10, estimate_smart_risk. apply risk_of_lp_floor.
    pose proof (vasc_sum_range (vasc s) 0) as [Hvc _].
    fold (vasc_count s) in Hvc. apply IZR_le in Hvc.
    destruct Hage as [Hage _]. destruct Hegfr as [_ Hegfr].
    destruct Hsbp as [Hsbp _].
    apply IZR_le in Hage, Hegfr, Hsbp.
    assert (Hlog : 0 <= (if Req_dec_T (crp s) 0 then 0 else ln (crp s + 1))).
    { destruct (Req_dec_T (crp s) 0); [lra |].
      replace (crp s + 1) with (1 + crp s) by lra.
      apply (ln_1p_bounds (crp s)). lra. }
    assert (0 <= IZR (match sex s with Male => 1 | Female => 0 end))
      by (destruct (sex s); lra).
    assert (0 <= IZR (if smoker s then 1 else 0))
      by (destruct (smoker s); lra).
    assert (0 <= IZR (if diabetes s then 1 else 0))
      by (destruct (diabetes s); lra).
    lra. }
  assert (H5 : 0.1 <= risk5 s).
  { unfold risk5. apply convert_5yr_floor.
    pose proof (risk10_range s). lra. }
  assert (Hb : 0.1 <= baseline_risk_capped s).
  { unfold baseline_risk_capped, baseline_risk, Rmin.
    pose proof (caps_range s).
    destruct (is_5yr (horizon s));
      match goal with |- context [Rle_dec ?a ?b] => destruct (Rle_dec a b) end;
      lra. }
  repeat split; try assumption.
  unfold rrr. destruct (Req_dec_T (baseline_risk_capped s) 0); [lra | reflexivity].
Qed.

Lemma valid_baseline_positive_witness :
  0.1 <= risk10 scenario_default
  /\ 0.1 <= risk5 scenario_default
  /\ 0.1 <= baseline_risk_capped scenario_default
  /\ rrr scenario_default =
     round1 (Rmin (arr scenario_default
                   / baseline_risk_capped scenario_default * 100) 75).
Proof.
  apply (valid_baseline_positive scenario_default).
  exact valid_scenario_default.
Defined.

(** X3. The 5-year conversion is monotone on [0, 100], keeps both ends
    fixed (0 gives 0, 100 gives 100) and returns a one-decimal value. *)
Theorem convert_5yr_monotone (r r' : R) :
  0 <= r <= r' -> r' <= 100 ->
  convert_5yr_from_10yr r <= convert_5yr_from_10yr r'
  /\ convert_5yr_from_10yr 0 = 0
  /\ convert_5yr_from_10yr 100 = 100
  /\ one_decimal (convert_5yr_from_10yr r).
Proof.
  intros Hr Hr'. split; [now apply convert_5yr_mono |].
  split; [| split; [| apply round1_one_decimal]].
  - rewrite convert_5yr_sqrt by lra.
    replace (1 - 0 / 100) with 1 by lra. rewrite sqrt_1.
    replace ((1 - 1) * 100) with 0 by lra. apply round1_0.
  - rewrite convert_5yr_sqrt by lra.
    replace (1 - 100 / 100) with 0 by lra. rewrite sqrt_0.
    replace ((1 - 0) * 100) with (IZR 100) by lra. apply round1_IZR.
Qed.

Lemma convert_5yr_monotone_witness :
  convert_5yr_from_10yr 12.5 <= convert_5yr_from_10yr 30
  /\ convert_5yr_from_10yr 0 = 0
  /\ convert_5yr_from_10yr 100 = 100
  /\ one_decimal (convert_5yr_from_10yr 12.5).
Proof.
  apply (convert_5yr_monotone 12.5 30); lra.
Defined.

(** X4. For one and the same sidebar the capped baseline grows with the
    horizon: five-year at most ten-year at most lifetime, and the lifetime
    figure is the ten-year figure unless the ten-year cap of 85 bites, in
    which case it exceeds it by at most 5. *)
Theorem baseline_grows_with_horizon (s : inputs) :
  baseline_risk_capped (with_horizon s H5yr)
  <= baseline_risk_capped (with_horizon s H10yr)
  /\ baseline_risk_capped (with_horizon s H10yr)
     <= baseline_risk_capped (with_horizon s Hlifetime)
  /\ baseline_risk_capped (with_horizon s Hlifetime)
     <= baseline_risk_capped (with_horizon s H10yr) + 5
  /\ (if Rle_dec (risk10 s) 85
      then baseline_risk_capped (with_horizon s Hlifetime)
           = baseline_risk_capped (with_horizon s H10yr)
      else baseline_risk_capped (with_horizon s H10yr) = 85).
Proof.
  unfold baseline_risk_capped, baseline_risk.
  cbn [with_horizon horizon is_5yr caps].
  change (risk5 (with_horizon s H5yr)) with (risk5 s).
  change (risk10 (with_horizon s H10yr)) with (risk10 s).
  change (risk10 (with_horizon s Hlifetime)) with (risk10 s).
  pose proof (risk5_range s) as H5. pose proof (risk10_range s) as H10.
  unfold Rmin.
  destruct (Rle_dec (risk5 s) 80); destruct (Rle_dec (risk10 s) 85);
    destruct (Rle_dec (risk10 s) 90); repeat split; lra.
Qed.

(** X5. The count of ticked vascular beds is between 0 and the number of
    checkboxes, hence between 0 and 3 for a valid sidebar. *)
Theorem vasc_count_range (s : inputs) :
  (0 <= vasc_count s <= Z.of_nat (length (vasc s)))%Z
  /\ (if Nat.eq_dec (length (vasc s)) 3 then (vasc_count s <= 3)%Z else True)
  /\ (vasc_count s = 0%Z <-> forall b, In b (vasc s) -> b = false).
Proof.
  pose proof (vasc_sum_range (vasc s) 0) as Hr. fold (vasc_count s) in Hr.
  split; [lia |]. split.
  - destruct (Nat.eq_dec (length (vasc s)) 3) as [He | _]; [| exact I].
    rewrite He in Hr. lia.
  - unfold vasc_count. generalize (vasc s). intros l.
    induction l as [| b l IH]; cbn [fold_left].
    + split; [intros _ b [] | reflexivity].
    + destruct b; cbn [b2z].
      * split.
        -- intros H. pose proof (vasc_sum_range l 1). simpl in H. lia.
        -- intros H. specialize (H true (or_introl eq_refl)). discriminate.
      * simpl (0 + 0)%Z. rewrite IH. split.
        -- intros H b [<- | Hb]; [reflexivity | now apply H].
        -- intros H b Hb. apply H. now right.
Qed.

(** ** The LDL projection *)

Section LdlMore.

Lemma pre_factor_range (d : therapy) : 0 < pre_factor d < 1.
Proof. unfold pre_factor. destruct d; simpl; lra. Qed.

Lemma add_factor_range (d : therapy) : 0 < add_factor d < 1.
Proof. unfold add_factor. destruct d; simpl; lra. Qed.

Lemma prod_pre_range (l : list therapy) :
  0 < prod_list (map pre_factor l) <= 1.
Proof.
  induction l as [| d l IH]; simpl; [lra |].
  pose proof (pre_factor_range d). nra.
Qed.

Lemma prod_add_range (l : list therapy) :
  0 < prod_list (map add_factor l) <= 1.
Proof.
  induction l as [| d l IH]; simpl; [lra |].
  pose proof (add_factor_range d). nra.
Qed.

Lemma Rmax_1_mono (x y : R) : x <= y -> Rmax x 1.0 <= Rmax y 1.0.
Proof. intros H. apply Rle_max_compat_r. exact H. Qed.

Lemma project_ldl_mono (b b' : R) (pre add : list therapy) :
  b <= b' -> project_ldl b pre add <= project_ldl b' pre add.
Proof.
  intros Hb. unfold project_ldl, project_adjusted_ldl.
  apply Rmax_1_mono. rewrite !fold_add_step.
  pose proof (prod_add_range add) as Ha.
  apply Rmult_le_compat_r; [lra |].
  apply Rmax_1_mono. rewrite !fold_pre_step.
  pose proof (prod_pre_range pre) as Hp.
  apply Rmult_le_compat_r; [lra | exact Hb].
Qed.

End LdlMore.

(** X6. For a non-negative baseline the projected LDL lies between the floor
    1.0 and the larger of the baseline and 1.0: therapies never raise LDL,
    and the drop that feeds the risk engine is at most baseline - 1. *)
Theorem project_ldl_bounds (b : R) (pre add : list therapy) :
  0 <= b ->
  1 <= project_ldl b pre add <= Rmax b 1
  /\ b - project_ldl b pre add <= b - 1.
Proof.
  intros Hb.
  pose proof (project_ldl_floor b pre add) as Hfloor.
  split; [split; [exact Hfloor |] | lra].
  unfold project_ldl, project_adjusted_ldl.
  rewrite fold_add_step, fold_pre_step.
  pose proof (prod_pre_range pre) as Hp.
  pose proof (prod_add_range add) as Ha.
  replace 1.0 with 1 by lra.
  assert (H1 : Rmax (b * prod_list (map pre_factor pre)) 1 <= Rmax b 1).
  { apply Rle_max_compat_r. nra. }
  assert (H2 : 1 <= Rmax (b * prod_list (map pre_factor pre)) 1)
    by apply Rmax_r.
  apply Rmax_lub; [| apply Rmax_r].
  apply Rle_trans with (Rmax (b * prod_list (map pre_factor pre)) 1);
    [nra | exact H1].
Qed.

Lemma project_ldl_bounds_witness :
  1 <= project_ldl 3.5 [Atorvastatin_80] [Ezetimibe] <= Rmax 3.5 1
  /\ 3.5 - project_ldl 3.5 [Atorvastatin_80] [Ezetimibe] <= 3.5 - 1.
Proof.
  apply (project_ldl_bounds 3.5 [Atorvastatin_80] [Ezetimibe]). lra.
Defined.

(** X7. Once the pre-admission therapies bring LDL to the floor or below,
    the add-on therapies change nothing: the projection is exactly 1.0
    whatever add-on therapies are chosen. *)
Theorem add_on_idle_at_floor (b : R) (pre add : list therapy) :
  fold_left pre_step pre b <= 1 ->
  project_adjusted_ldl b pre = 1 /\ project_ldl b pre add = 1.
Proof.
  intros Hpre.
  assert (Hadj : project_adjusted_ldl b pre = 1).
  { unfold project_adjusted_ldl. replace 1.0 with 1 by lra.
    now apply Rmax_right. }
  split; [exact Hadj |].
  unfold project_ldl. rewrite Hadj, fold_add_step.
  pose proof (prod_add_range add) as Ha.
  replace 1.0 with 1 by lra. apply Rmax_right. lra.
Qed.

Lemma add_on_idle_at_floor_witness :
  project_adjusted_ldl 1.5 [PCSK9_inhibitor] = 1
  /\ project_ldl 1.5 [PCSK9_inhibitor] [Ezetimibe; Bempedoic_acid] = 1.
Proof.
  apply (add_on_idle_at_floor 1.5 [PCSK9_inhibitor]
           [Ezetimibe; Bempedoic_acid]).
  unfold pre_step. cbn [fold_left ldl_therapies]. lra.
Defined.

(** X8. The projection is monotone: a higher baseline never projects lower,
    and one more therapy, pre-admission or add-on, never raises the
    projected LDL of a non-negative baseline. *)
Theorem project_ldl_monotone (b b' : R) (pre add : list therapy) (d : therapy) :
  0 <= b <= b' ->
  project_ldl b pre add <= project_ldl b' pre add
  /\ project_ldl b (d :: pre) add <= project_ldl b pre add
  /\ project_ldl b pre (d :: add) <= project_ldl b pre add.
Proof.
  intros [Hb0 Hbb].
  split; [now apply project_ldl_mono |]. split.
  - pose proof (pre_factor_range d) as Hd.
    assert (Hcons : project_ldl b (d :: pre) add
                    = project_ldl (b * pre_factor d) pre add) by reflexivity.
    rewrite Hcons. apply project_ldl_mono. nra.
  - unfold project_ldl. apply Rmax_1_mono.
    cbn [fold_left]. rewrite !fold_add_step.
    pose proof (prod_add_range add) as Ha.
    pose proof (add_factor_range d) as Hd.
    assert (Hadj : 1 <= project_adjusted_ldl b pre).
    { unfold project_adjusted_ldl. replace 1.0 with 1 by lra. apply Rmax_r. }
    apply Rmult_le_compat_r; [lra |].
    unfold add_step. fold (add_factor d). nra.
Qed.

Lemma project_ldl_monotone_witness :
  project_ldl 3.0 [Ezetimibe] [] <= project_ldl 4.0 [Ezetimibe] []
  /\ project_ldl 3.0 [Simvastatin_40; Ezetimibe] []
     <= project_ldl 3.0 [Ezetimibe] []
  /\ project_ldl 3.0 [Ezetimibe] [Simvastatin_40]
     <= project_ldl 3.0 [Ezetimibe] [].
Proof.
  apply (project_ldl_monotone 3.0 4.0 [Ezetimibe] [] Simvastatin_40). lra.
Defined.



(** ** The selection widgets *)

Section WidgetFacts.

Lemma ldl_therapy_keys_complete (d : therapy) : In d ldl_therapy_keys.
Proof. destruct d; simpl; tauto. Qed.

Lemma ldl_therapy_keys_nodup : NoDup ldl_therapy_keys.
Proof.
  unfold ldl_therapy_keys. repeat constructor; simpl; intuition discriminate.
Qed.

Lemma in_add_options (pre : list therapy) (d : therapy) :
  In d (add_options pre) <-> ~ In d pre.
Proof.
  unfold add_options. rewrite filter_In.
  destruct (in_dec therapy_eq_dec d pre) as [Hin | Hout]; split.
  - intros [_ H]. discriminate.
  - intros H. contradiction.
  - intros _. exact Hout.
  - intros _. split; [apply ldl_therapy_keys_complete | reflexivity].
Qed.

Lemma collect_fold (checkbox : iv_name -> bool) (l : list intervention)
    (acc : list iv_name) :
  fold_left
    (fun ivs iv => if checkbox (name iv) then ivs ++ [name iv] else ivs) l acc
  = acc ++ filter checkbox (map name l).
Proof.
  revert acc. induction l as [| iv l IH]; intros acc; cbn [fold_left map filter].
  - now rewrite app_nil_r.
  - rewrite IH. destruct (checkbox (name iv)); [| reflexivity].
    now rewrite <- app_assoc.
Qed.

End WidgetFacts.

(** X10. The options offered for the add-on multiselect are exactly the
    therapies not chosen before admission, each once; so every add-on
    selection is disjoint from a duplicate-free pre-admission selection and
    the two option lists together have the 8 catalog therapies. *)
Theorem add_options_exclude_pre (pre : list therapy) (Hpre : NoDup pre) :
  (forall d, In d (add_options pre) <-> ~ In d pre)
  /\ NoDup (add_options pre)
  /\ Permutation (pre ++ add_options pre) ldl_therapy_keys
  /\ (length pre + length (add_options pre) = 8)%nat.
Proof.
  assert (Hnd : NoDup (add_options pre))
    by (apply NoDup_filter, ldl_therapy_keys_nodup).
  assert (Hperm : Permutation (pre ++ add_options pre) ldl_therapy_keys).
  { apply NoDup_Permutation.
    - apply NoDup_app; [exact Hpre | exact Hnd |].
      intros d Hd Hd'. now apply in_add_options in Hd'.
    - apply ldl_therapy_keys_nodup.
    - intros d. split; [intros _; apply ldl_therapy_keys_complete |].
      intros _. apply in_or_app.
      destruct (in_dec therapy_eq_dec d pre) as [Hin | Hout];
        [now left | right; now apply in_add_options]. }
  split; [apply in_add_options |]. split; [exact Hnd |].
  split; [exact Hperm |].
  apply Permutation_length in Hperm. rewrite length_app in Hperm. exact Hperm.
Qed.

Lemma add_options_exclude_pre_witness :
  (forall d, In d (add_options [Atorvastatin_80; Ezetimibe])
             <-> ~ In d [Atorvastatin_80; Ezetimibe])
  /\ NoDup (add_options [Atorvastatin_80; Ezetimibe])
  /\ Permutation ([Atorvastatin_80; Ezetimibe]
                  ++ add_options [Atorvastatin_80; Ezetimibe])
       ldl_therapy_keys
  /\ (length [Atorvastatin_80; Ezetimibe]
      + length (add_options [Atorvastatin_80; Ezetimibe]) = 8)%nat.
Proof.
  apply (add_options_exclude_pre [Atorvastatin_80; Ezetimibe]).
  repeat constructor; simpl; intuition discriminate.
Defined.

(** X11. The checkbox loop returns the names of the ticked interventions in
    catalog order, each once; the membership test of the stacking loop then
    applies an intervention's factor exactly when its checkbox is ticked. *)
Theorem collect_ivs_ticked (checkbox : iv_name -> bool) :
  collect_ivs checkbox = filter checkbox (map name interventions)
  /\ NoDup (collect_ivs checkbox)
  /\ (forall n, In n (collect_ivs checkbox) <-> checkbox n = true)
  /\ (forall h r iv,
        iv_step h (collect_ivs checkbox) r iv =
        if checkbox (name iv)
        then r * (1 - IZR (iv_effect h iv) / 100) else r).
Proof.
  assert (Heq : collect_ivs checkbox
                = filter checkbox (map name interventions)).
  { unfold collect_ivs. now rewrite collect_fold. }
  assert (Hin : forall n, In n (collect_ivs checkbox) <-> checkbox n = true).
  { intros n. rewrite Heq, filter_In. split; [tauto |].
    intros H. split; [apply catalog_complete | exact H]. }
  split; [exact Heq |]. split.
  { rewrite Heq. apply NoDup_filter, catalog_names_nodup. }
  split; [exact Hin |].
  intros h r iv. unfold iv_step.
  destruct (in_dec iv_name_eq_dec (name iv) (collect_ivs checkbox)) as [H | H];
    destruct (checkbox (name iv)) eqn:Hc; try reflexivity; exfalso.
  - apply Hin in H. congruence.
  - apply H. now apply Hin.
Qed.

(** ** Stacking and outcome metrics *)

Section StackingMore.

Lemma baseline_with_ivs (s : inputs) (sel : list iv_name) :
  baseline_risk_capped (with_ivs s sel) = baseline_risk_capped s.
Proof. reflexivity. Qed.

Lemma fold_iv_step_ext (h : horizon_t) (sel sel' : list iv_name)
    (l : list intervention) (r : R) :
  (forall m, In m sel <-> In m sel') ->
  fold_left (iv_step h sel) l r = fold_left (iv_step h sel') l r.
Proof.
  intros Hsel. revert r. induction l as [| iv l IH]; intros r; simpl.
  - reflexivity.
  - rewrite IH. f_equal. unfold iv_step.
    destruct (in_dec iv_name_eq_dec (name iv) sel) as [H | H];
      destruct (in_dec iv_name_eq_dec (name iv) sel') as [H' | H'];
      try reflexivity; exfalso.
    + apply H'. now apply Hsel.
    + apply H. now apply Hsel.
Qed.

Lemma fold_iv_step_incl (h : horizon_t) (sel sel' : list iv_name)
    (l : list intervention) :
  incl sel sel' ->
  Forall (fun iv => (0 < iv_effect h iv < 100)%Z) l ->
  forall r r', 0 <= r' <= r ->
    0 <= fold_left (iv_step h sel') l r' <= fold_left (iv_step h sel) l r.
Proof.
  intros Hincl Hl.
  induction Hl as [| iv l [Hlo Hhi] _ IH]; intros r r' Hr; simpl.
  - exact Hr.
  - apply IH. apply IZR_lt in Hlo, Hhi. unfold iv_step.
    destruct (in_dec iv_name_eq_dec (name iv) sel') as [H' | H'];
      destruct (in_dec iv_name_eq_dec (name iv) sel) as [H | H].
    + nra.
    + nra.
    + exfalso. apply H'. now apply Hincl.
    + exact Hr.
Qed.

Lemma remaining_ivs_le_baseline (s : inputs) :
  remaining_ivs s <= baseline_risk_capped s / 100.
Proof.
  unfold remaining_ivs.
  pose proof (baseline_risk_capped_range s) as Hb.
  destruct (fold_iv_step_incl (horizon s) [] (ivs s) interventions
              (incl_nil_l _) (catalog_effects (horizon s))
              (baseline_risk_capped s / 100) (baseline_risk_capped s / 100))
    as [_ H]; [lra |].
  now rewrite fold_iv_step_nil in H.
Qed.

Lemma one_decimal_minus (x y : R) :
  one_decimal x -> one_decimal y -> one_decimal (x - y).
Proof.
  intros [k ->] [m ->]. exists (k - m)%Z. rewrite minus_IZR. lra.
Qed.

Lemma round1_error (x : R) : Rabs (round1 x - x) <= 0.05.
Proof.
  unfold round1. pose proof (half_even_bound (x * 10)) as H.
  apply Rabs_le. lra.
Qed.

End StackingMore.

(** X12. Only membership in the selection matters: two selections with the
    same members (in any order, with or without repetitions) give the same
    running probability, final risk, ARR and RRR. *)
Theorem selection_as_set (s : inputs) (sel sel' : list iv_name) :
  (forall m, In m sel <-> In m sel') ->
  remaining (with_ivs s sel) = remaining (with_ivs s sel')
  /\ final_risk (with_ivs s sel) = final_risk (with_ivs s sel')
  /\ arr (with_ivs s sel) = arr (with_ivs s sel')
  /\ rrr (with_ivs s sel) = rrr (with_ivs s sel').
Proof.
  intros Hsel.
  assert (Hrem : remaining (with_ivs s sel) = remaining (with_ivs s sel')).
  { rewrite !remaining_scale, !physio_scale_with_ivs. f_equal.
    unfold remaining_ivs. rewrite !baseline_with_ivs.
    cbn [with_ivs horizon ivs]. now apply fold_iv_step_ext. }
  assert (Hfin : final_risk (with_ivs s sel) = final_risk (with_ivs s sel'))
    by (unfold final_risk; now rewrite Hrem).
  assert (Harr : arr (with_ivs s sel) = arr (with_ivs s sel'))
    by (unfold arr; now rewrite !baseline_with_ivs, Hfin).
  repeat split; try assumption.
  unfold rrr. now rewrite !baseline_with_ivs, Harr.
Qed.

Lemma selection_as_set_witness :
  remaining (with_ivs scenario_default [Physical_activity; Antiplatelet])
  = remaining (with_ivs scenario_default
                 [Antiplatelet; Physical_activity; Antiplatelet])
  /\ final_risk (with_ivs scenario_default [Physical_activity; Antiplatelet])
     = final_risk (with_ivs scenario_default
                     [Antiplatelet; Physical_activity; Antiplatelet])
  /\ arr (with_ivs scenario_default [Physical_activity; Antiplatelet])
     = arr (with_ivs scenario_default
              [Antiplatelet; Physical_activity; Antiplatelet])
  /\ rrr (with_ivs scenario_default [Physical_activity; Antiplatelet])
     = rrr (with_ivs scenario_default
              [Antiplatelet; Physical_activity; Antiplatelet]).
Proof.
  apply (selection_as_set scenario_default
           [Physical_activity; Antiplatelet]
           [Antiplatelet; Physical_activity; Antiplatelet]).
  intros m. simpl. tauto.
Defined.

(** X13. A larger selection never gives a higher risk: if every selected
    intervention stays selected, the running probability and the reported
    final risk do not increase and the ARR does not decrease. *)
Theorem larger_selection_lower_risk (s : inputs) (sel sel' : list iv_name) :
  incl sel sel' ->
  remaining (with_ivs s sel') <= remaining (with_ivs s sel)
  /\ final_risk (with_ivs s sel') <= final_risk (with_ivs s sel)
  /\ arr (with_ivs s sel) <= arr (with_ivs s sel').
Proof.
  intros Hincl.
  assert (Hrem : remaining (with_ivs s sel') <= remaining (with_ivs s sel)).
  { rewrite !remaining_scale, !physio_scale_with_ivs.
    pose proof (physio_scale_range s) as Hp.
    apply Rmult_le_compat_r; [lra |].
    unfold remaining_ivs. rewrite !baseline_with_ivs.
    cbn [with_ivs horizon ivs].
    pose proof (baseline_risk_capped_range s) as Hb.
    apply (fold_iv_step_incl (horizon s) sel sel' interventions Hincl
             (catalog_effects (horizon s))). lra. }
  assert (Hfin : final_risk (with_ivs s sel') <= final_risk (with_ivs s sel))
    by (unfold final_risk; apply round1_mono; lra).
  repeat split; try assumption.
  unfold arr. rewrite !baseline_with_ivs. apply round1_mono. lra.
Qed.

Lemma larger_selection_lower_risk_witness :
  remaining (with_ivs profile_high [Smoking_cessation; BP_control])
  <= remaining (with_ivs profile_high [BP_control])
  /\ final_risk (with_ivs profile_high [Smoking_cessation; BP_control])
     <= final_risk (with_ivs profile_high [BP_control])
  /\ arr (with_ivs profile_high [BP_control])
     <= arr (with_ivs profile_high [Smoking_cessation; BP_control]).
Proof.
  apply (larger_selection_lower_risk profile_high [BP_control]
           [Smoking_cessation; BP_control]).
  intros m Hm. simpl in *. tauto.
Defined.

(** X14. The four stages commute: the LDL, blood-pressure and HbA1c effects
    can be applied in any order, and before or after the interventions,
    without changing the running probability. *)
Theorem stages_commute (s : inputs) (r : R) :
  hba1c_effect (hba1c s)
    (bp_effect (sbp_target s) (sbp_current s)
       (ldl_effect (final_ldl s) (baseline_ldl s) r))
  = ldl_effect (final_ldl s) (baseline_ldl s)
      (bp_effect (sbp_target s) (sbp_current s)
         (hba1c_effect (hba1c s) r))
  /\ bp_effect (sbp_target s) (sbp_current s)
       (ldl_effect (final_ldl s) (baseline_ldl s) r)
     = ldl_effect (final_ldl s) (baseline_ldl s)
         (bp_effect (sbp_target s) (sbp_current s) r)
  /\ remaining s =
       fold_left (iv_step (horizon s) (ivs s)) interventions
         (hba1c_effect (hba1c s)
            (bp_effect (sbp_target s) (sbp_current s)
               (ldl_effect (final_ldl s) (baseline_ldl s)
                  (baseline_risk_capped s / 100)))).
Proof.
  repeat split.
  - rewrite !hba1c_effect_factor, !bp_effect_factor, !ldl_effect_factor. ring.
  - rewrite !bp_effect_factor, !ldl_effect_factor. ring.
  - rewrite remaining_scale. unfold remaining_ivs, physio_scale.
    rewrite hba1c_effect_factor, bp_effect_factor, ldl_effect_factor.
    rewrite <- fold_iv_step_scale. f_equal. ring.
Qed.

(** X15. The reported figures are consistent: the final risk lies between 0
    and the capped baseline and within 0.05 of the unrounded value, the ARR
    is exactly baseline minus final risk and is never negative, and the RRR
    lies between 0 and 75. *)
Theorem outcome_metrics_bounds (s : inputs) :
  0 <= final_risk s <= baseline_risk_capped s
  /\ Rabs (final_risk s - remaining s * 100) <= 0.05
  /\ arr s = baseline_risk_capped s - final_risk s
  /\ 0 <= arr s <= baseline_risk_capped s
  /\ 0 <= rrr s <= 75.
Proof.
  pose proof (remaining_nonneg s) as Hnn.
  pose proof (baseline_risk_capped_range s) as Hb.
  assert (Hrem : remaining s <= baseline_risk_capped s / 100).
  { rewrite remaining_scale.
    pose proof (remaining_ivs_le_baseline s) as H1.
    pose proof (remaining_ivs_nonneg s) as H0.
    pose proof (physio_scale_range s) as Hp. nra. }
  assert (Hfin : 0 <= final_risk s <= baseline_risk_capped s).
  { unfold final_risk. split.
    - apply (round1_ge_IZR _ 0). lra.
    - apply round1_le_fix; [apply baseline_risk_capped_one_decimal | lra]. }
  assert (Harr : arr s = baseline_risk_capped s - final_risk s).
  { unfold arr. apply round1_fix. apply one_decimal_minus.
    - apply baseline_risk_capped_one_decimal.
    - apply round1_one_decimal. }
  split; [exact Hfin |]. split; [apply round1_error |].
  split; [exact Harr |]. split; [lra |].
  unfold rrr. destruct (Req_dec_T (baseline_risk_capped s) 0) as [Hz | Hnz];
    [lra |].
  split.
  - apply (round1_ge_IZR _ 0). apply Rmin_glb; [| lra].
    assert (0 <= arr s / baseline_risk_capped s).
    { apply Rmult_le_pos; [lra |]. left. apply Rinv_0_lt_compat. lra. }
    lra.
  - apply (round1_le_IZR _ 75). apply Rmin_r.
Qed.

(** X16. Where the caps bite: an LDL drop of 35/22 mmol/L or more always
    scales the probability by 0.65, an SBP drop of 14 mmHg or more by 0.80,
    an HbA1c of 7 + 10/3 or more by 0.70; below these thresholds the
    reductions are linear, 22% per mmol/L, 1.5% per mmHg and 9% per point. *)
Theorem effect_caps_thresholds (f b a : R) (t c : Z) (r : R) :
  f < b -> (t < c)%Z -> 7 < a ->
  ldl_effect f b r =
    (if Rle_dec (35 / 22) (b - f) then r * 0.65
     else r * (1 - 22 * (b - f) / 100))
  /\ bp_effect t c r =
       (if Z_le_dec 14 (c - t) then r * 0.80
        else r * (1 - 1.5 * IZR (c - t) / 100))
  /\ hba1c_effect a r =
       (if Rle_dec (7 + 10 / 3) a then r * 0.70
        else r * (1 - 9 * (a - 7) / 100)).
Proof.
  intros Hf Ht Ha. repeat split.
  - unfold ldl_effect, Rmin. destruct (Rlt_dec f b); [| lra].
    destruct (Rle_dec (22 * (b - f)) 35);
      destruct (Rle_dec (35 / 22) (b - f)); try lra.
    replace (22 * (b - f)) with 35 by lra. lra.
  - unfold bp_effect, Rmin. destruct (Z_lt_dec t c); [| lia].
    destruct (Z_le_dec 14 (c - t)) as [H | H].
    + apply IZR_le in H.
      destruct (Rle_dec (15 * (IZR (c - t) / 10)) 20); lra.
    + assert (H' : IZR (c - t) <= 13) by (apply IZR_le; lia).
      destruct (Rle_dec (15 * (IZR (c - t) / 10)) 20); lra.
  - unfold hba1c_effect, rrr_hba1c, Rmin. destruct (Rlt_dec 7.0 a); [| lra].
    destruct (Rle_dec ((a - 7.0) * 9) 30);
      destruct (Rle_dec (7 + 10 / 3) a); try lra.
    replace ((a - 7.0) * 9) with 30 by lra. lra.
Qed.

Lemma effect_caps_thresholds_witness :
  ldl_effect 1.75 3.5 0.2 =
    (if Rle_dec (35 / 22) (3.5 - 1.75) then 0.2 * 0.65
     else 0.2 * (1 - 22 * (3.5 - 1.75) / 100))
  /\ bp_effect 120 145 0.2 =
       (if Z_le_dec 14 (145 - 120) then 0.2 * 0.80
        else 0.2 * (1 - 1.5 * IZR (145 - 120) / 100))
  /\ hba1c_effect 8.5 0.2 =
       (if Rle_dec (7 + 10 / 3) 8.5 then 0.2 * 0.70
        else 0.2 * (1 - 9 * (8.5 - 7) / 100)).
Proof.
  apply (effect_caps_thresholds 1.75 3.5 8.5 120 145 0.2); [lra | lia | lra].
Defined.

Section ReductionLimit.

Lemma catalog_effects_ordered (h : horizon_t) :
  Forall (fun iv => (0 < iv_effect h iv <= arr_lifetime iv)%Z
                    /\ (arr_lifetime iv < 100)%Z) interventions.
Proof.
  unfold interventions, iv_effect.
  repeat constructor; destruct h; simpl; lia.
Qed.

Lemma fold_iv_step_lower (h : horizon_t) (sel : list iv_name)
    (l : list intervention) :
  Forall (fun iv => (0 < iv_effect h iv <= arr_lifetime iv)%Z
                    /\ (arr_lifetime iv < 100)%Z) l ->
  forall r, 0 <= r ->
    r * prod_list (map (fun iv => 1 - IZR (arr_lifetime iv) / 100) l)
    <= fold_left (iv_step h sel) l r.
Proof.
  intros Hl.
  induction Hl as [| iv l [[Hlo Hle] Hhi] Hl' IH]; intros r Hr; simpl.
  - lra.
  - apply IZR_lt in Hlo, Hhi. apply IZR_le in Hle.
    set (p := prod_list (map (fun iv => 1 - IZR (arr_lifetime iv) / 100) l)).
    assert (Hp : 0 <= p).
    { unfold p. clear -Hl'. induction Hl' as [| iv' l' [_ Hhi'] _ IH'];
        simpl; [lra |].
      apply IZR_lt in Hhi'. apply Rmult_le_pos; [lra | exact IH']. }
    assert (Hstep : 0 <= r * (1 - IZR (arr_lifetime iv) / 100)
                    <= iv_step h sel r iv).
    { unfold iv_step.
      destruct (in_dec iv_name_eq_dec (name iv) sel); split; nra. }
    apply Rle_trans with (iv_step h sel r iv * p).
    + fold p. destruct Hstep as [H0 H1].
      replace (r * ((1 - IZR (arr_lifetime iv) / 100) * p))
        with (r * (1 - IZR (arr_lifetime iv) / 100) * p) by ring.
      now apply Rmult_le_compat_r.
    + apply IH. lra.
Qed.

End ReductionLimit.

(** X17. However many interventions and effects are combined, the running
    probability keeps at least 14% of the capped baseline and never
    exceeds it: the stacked reduction is at most 86%. *)
Theorem stacked_reduction_limit (s : inputs) :
  0.14 * (baseline_risk_capped s / 100) <= remaining s
  /\ remaining s <= baseline_risk_capped s / 100.
Proof.
  pose proof (baseline_risk_capped_range s) as Hb.
  split.
  - rewrite remaining_scale.
    pose proof (fold_iv_step_lower (horizon s) (ivs s) interventions
                  (catalog_effects_ordered (horizon s))
                  (baseline_risk_capped s / 100) ltac:(lra)) as Hivs.
    fold (remaining_ivs s) in Hivs.
    assert (Hprod : 0.40 <= prod_list
              (map (fun iv => 1 - IZR (arr_lifetime iv) / 100) interventions))
      by (simpl; lra).
    assert (Hlow : 0.40 * (baseline_risk_capped s / 100) <= remaining_ivs s)
      by nra.
    pose proof (ldl_factor_range (final_ldl s) (baseline_ldl s)) as H1.
    pose proof (bp_factor_range (sbp_target s) (sbp_current s)) as H2.
    pose proof (glycaemic_factor_range (hba1c s)) as H3.
    unfold physio_scale.
    set (a := Spec.ldl_factor _ _) in *.
    set (c := Spec.bp_factor _ _) in *.
    set (g := Spec.glycaemic_factor _) in *.
    assert (Hac : 0.52 <= (1 - a / 100) * (1 - c / 100)) by nra.
    assert (Hacg : 0.364 <= (1 - a / 100) * (1 - c / 100) * (1 - g / 100))
      by nra.
    nra.
  - rewrite remaining_scale.
    pose proof (remaining_ivs_le_baseline s) as H1.
    pose proof (remaining_ivs_nonneg s) as H0.
    pose proof (physio_scale_range s) as Hp. nra.
Qed.
